(** * CatColab: the model validator, the document loaders and the
      Decapodes service, as a shallow embedding.

    Sources embedded here:
    - [packages/frontend/src/App.tsx] ([CreateModel], routes,
      [catlogModel], [validateModel], [makeSimulationData]);
    - [packages/frontend/src/analysis/document.ts] ([newAnalysisDocument]);
    - [packages/frontend/src/document/analysis_document_editor.tsx]
      ([AnalysisPage], [ModelAnalysisCellEditor]);
    - [packages/algjulia-service/src/decapodes-service/decapodes.jl]
      ([Theory], [add_to_pode!], [Decapode]). *)

From Stdlib Require Import ZArith String Ascii List Bool Lia.
From Stdlib Require Import Decimal DecimalString DecimalZ.
From stdpp Require Import base option list gmap strings.

Open Scope string_scope.
Open Scope list_scope.

(** ** JavaScript objects living in a store

    A [DblModel] is a mutable object: [catlogModel] creates one with [new]
    and mutates it with [addOb] and [addMor].  The store maps a reference
    (the position at which the object was allocated) to the object's
    current content. *)

Module Store.

Definition ref := nat.

Section WithObj.
Context {Obj : Type}.

Definition store := list Obj.

(** A computation that reads and writes the store. *)
Definition Eff (A : Type) : Type := store → A * store.

Definition ret {A} (a : A) : Eff A := λ σ, (a, σ).

Definition bind {A B} (m : Eff A) (k : A → Eff B) : Eff B :=
  λ σ, let '(a, σ') := m σ in k a σ'.

(** [new C(..)]: the object is put at a fresh reference. *)
Definition alloc (o : Obj) : Eff ref := λ σ, (length σ, σ ++ [o]).

(** A method that mutates the receiver. *)
Definition modify (r : ref) (f : Obj → Obj) : Eff unit :=
  λ σ, (tt, match σ !! r with
            | Some o => <[r := f o]> σ
            | None => σ
            end).

(** A method that only reads the receiver; [d] stands for the result on
    a reference that was never allocated (no caller below has one). *)
Definition read {A} (r : ref) (f : Obj → A) (d : A) : Eff A :=
  λ σ, (match σ !! r with Some o => f o | None => d end, σ).

(** [for (const x of xs) { body(x) }] *)
Fixpoint for_of {A} (xs : list A) (body : A → Eff unit) : Eff unit :=
  match xs with
  | [] => ret tt
  | x :: xs' => bind (body x) (λ _, for_of xs' body)
  end.
End WithObj.

Arguments store : clear implicits.
Arguments Eff : clear implicits.

End Store.

Declare Scope eff_scope.
Delimit Scope eff_scope with eff.
Notation "'let*' x := m 'in' k" := (Store.bind m (λ x, k))
  (at level 10, x name, m at level 100, k at level 200) : eff_scope.
Notation "m ;;; k" := (Store.bind m (λ _, k))
  (at level 100, k at level 200, right associativity) : eff_scope.

(** ** Results tagged [Ok] or [Err], as the wasm bindings return them *)

Inductive JsResult (T E : Type) : Type :=
| Ok (content : T)
| Err (content : E).
Arguments Ok {T E} content.
Arguments Err {T E} content.

Definition result_tag {T E} (r : JsResult T E) : string :=
  match r with
  | Ok _ => "Ok"
  | Err _ => "Err"
  end.

(** ** Model judgments ([App.tsx], lines 121--207) *)

Module Model.

Abbreviation Uuid := string.

(** An object of a model as a morphism declaration refers to it:
    [{tag: .., content: id}]. *)
Record Ob := { content : Uuid }.

Section Judgments.
(** [ObType] and [MorType] are declared by [catlog-wasm]. *)
Context {ObType MorType : Type}.

(** [ObjectDecl = ObDecl & {tag: "object"; name: string}] *)
Record ObjectDecl := {
  ob_id : Uuid;
  ob_name : string;
  obType : ObType
}.

(** [MorphismDecl = MorDecl & {tag: "morphism"; name: string}];
    [dom] and [cod] are [null] until the editor fills them in. *)
Record MorphismDecl := {
  mor_id : Uuid;
  mor_name : string;
  morType : MorType;
  dom : option Ob;
  cod : option Ob
}.

(** [ModelJudgment = ObjectDecl | MorphismDecl], told apart by [tag]. *)
Inductive ModelJudgment :=
| object (decl : ObjectDecl)
| morphism (decl : MorphismDecl).
End Judgments.

Arguments ObjectDecl : clear implicits.
Arguments MorphismDecl : clear implicits.
Arguments ModelJudgment : clear implicits.

(** The part of [catlog-wasm] that [catlogModel] and [validateModel]
    call.  The class [DblModel] is not among the sources: its constructor
    and methods are taken as functions on the content of the object. *)
Class Wasm := {
  ObType : Type;
  MorType : Type;
  DblTheory : Type;
  kind : DblTheory → string;
  DblModel : Type;
  DblModel_new : DblTheory → DblModel;
  addOb : DblModel → ObjectDecl ObType → DblModel;
  addMor : DblModel → MorphismDecl MorType → DblModel;
  InvalidModel : Type;
  validate : DblModel → JsResult unit (list InvalidModel)
}.

Section Validation.
Context `{W : Wasm}.

Abbreviation Judgment := (ModelJudgment ObType MorType).
Abbreviation ModelValidationResult := (JsResult unit (list InvalidModel)).
Abbreviation Eff := (Store.Eff DblModel).

Local Open Scope eff_scope.

(** [catlogModel], lines 177--187. *)
Definition catlogModel (theory : DblTheory) (judgments : list Judgment)
  : Eff Store.ref :=
  let* model := Store.alloc (DblModel_new theory) in
  Store.for_of judgments (λ judgment,
    match judgment with
    | object decl => Store.modify model (λ m, addOb m decl)
    | morphism decl => Store.modify model (λ m, addMor m decl)
    end) ;;;
  Store.ret model.

(** [ValidatedModel], lines 190--193. *)
Record ValidatedModel := {
  model : Store.ref;
  result : ModelValidationResult
}.

(** [validateModel], lines 196--207; [None] is [undefined]. *)
Definition validateModel (theory : DblTheory) (judgments : list Judgment)
  : Eff (option ValidatedModel) :=
  if bool_decide (kind theory ≠ "Discrete") then
    Store.ret None
  else
    let* model := catlogModel theory judgments in
    let* result := Store.read model validate (Ok tt) in
    Store.ret (Some {| model := model; result := result |}).

(** What a caller can observe of a validated model: the content of the
    model object and the validation result. *)
Definition observe (σ : Store.store DblModel) (v : option ValidatedModel)
  : option (option DblModel * ModelValidationResult) :=
  match v with
  | None => None
  | Some vm => Some (σ !! model vm, result vm)
  end.

(** One turn of the loop of [catlogModel] on the content of the model. *)
Definition add_judgment (m : DblModel) (judgment : Judgment) : DblModel :=
  match judgment with
  | object decl => addOb m decl
  | morphism decl => addMor m decl
  end.
End Validation.

(** *** The model object, modelled from the spec *)

Module Spec.

(** Modelled from the spec: the theory, which [catlog-wasm] declares
    (section 3: identified by [theoryId], exposes [kind]). *)
Record Theory := { theoryId : string; theory_kind : string }.

(** Modelled from the spec: the content of a [DblModel], a class of
    [catlog-wasm] that is not among the sources (section 8: a model
    "containing exactly the declared objects and morphisms, in
    declaration order", written [{obs: .., morphisms: ..}]). *)
Record Content := {
  theory : Theory;
  obs : list (ObjectDecl string);
  morphisms : list (MorphismDecl string)
}.

(** Modelled from the spec: [new DblModel(theory)], a model with nothing
    declared. *)
Definition new (th : Theory) : Content :=
  {| theory := th; obs := []; morphisms := [] |}.

(** Modelled from the spec: [DblModel.addOb] (section 4.2: "object
    judgments are added first-come"). *)
Definition add_ob (m : Content) (decl : ObjectDecl string) : Content :=
  {| theory := theory m; obs := obs m ++ [decl];
     morphisms := morphisms m |}.

(** Modelled from the spec: [DblModel.addMor] (section 4.2: a morphism
    with a missing [dom] or [cod] "is retained"). *)
Definition add_mor (m : Content) (decl : MorphismDecl string) : Content :=
  {| theory := theory m; obs := obs m;
     morphisms := morphisms m ++ [decl] |}.

(** Modelled from the spec: the structural errors of section 7 and of
    scenario B, [{judgment: 2, kind: "dangling-cod"}]. *)
Inductive ErrorKind := dangling_dom | dangling_cod.

(** Modelled from the spec: an error, which "identifies the offending
    judgment's id" (section 4.2). *)
Record Invalid := { judgment : Uuid; error_kind : ErrorKind }.

Section Validate.
(** The spec does not say whether a [dom] or [cod] that is still
    [null] is reported: both readings are covered. *)
Variable null_is_error : bool.

(** Modelled from the spec: a reference resolves when it names one of the
    objects of the model (section 3: the ids "may be missing"). *)
Definition resolves (declared : list Uuid) (o : option Ob) : bool :=
  match o with
  | Some ob => bool_decide (content ob ∈ declared)
  | None => negb null_is_error
  end.

(** Modelled from the spec: the errors of one morphism, for its [dom] and
    for its [cod] (section 7: "dangling dom/cod"). *)
Definition check (declared : list Uuid) (f : MorphismDecl string)
  : list Invalid :=
  (if resolves declared (dom f) then []
   else [{| judgment := mor_id f; error_kind := dangling_dom |}]) ++
  (if resolves declared (cod f) then []
   else [{| judgment := mor_id f; error_kind := dangling_cod |}]).

(** Modelled from the spec: [DblModel.validate] (section 4.2:
    "[Ok(model)] when every judgment satisfies the theory's structural
    rules, else [Err(errors)] where each error identifies the
    offending judgment's id"; section 3: "a dangling reference is a
    validation error"). *)
Definition validate (m : Content) : JsResult unit (list Invalid) :=
  match flat_map (check (map ob_id (obs m))) (morphisms m) with
  | [] => Ok tt
  | errors => Err errors
  end.

(** Modelled from the spec: the [DblModel] class as a whole. *)
Definition wasm : Wasm := {|
  ObType := string;
  MorType := string;
  DblTheory := Theory;
  kind := theory_kind;
  DblModel := Content;
  DblModel_new := new;
  addOb := add_ob;
  addMor := add_mor;
  InvalidModel := Invalid;
  Model.validate := validate
|}.
End Validate.

(** The object declarations and the morphism declarations of a sequence
    of judgments, each in the order of the sequence. *)
Definition declared_obs (js : list (ModelJudgment string string))
  : list (ObjectDecl string) :=
  flat_map (λ j, match j with object d => [d] | morphism _ => [] end) js.

Definition declared_mors (js : list (ModelJudgment string string))
  : list (MorphismDecl string) :=
  flat_map (λ j, match j with object _ => [] | morphism d => [d] end) js.

(** Every [dom] and [cod] is set and names an object declared earlier in
    the sequence; [seen] holds the ids declared so far. *)
Fixpoint well_scoped (seen : list Uuid)
    (js : list (ModelJudgment string string)) : bool :=
  match js with
  | [] => true
  | object d :: js' => well_scoped (seen ++ [ob_id d]) js'
  | morphism f :: js' =>
      match dom f, cod f with
      | Some d, Some c =>
          bool_decide (content d ∈ seen) && bool_decide (content c ∈ seen)
          && well_scoped seen js'
      | _, _ => false
      end
  end.

(** *** The scenarios of section 8 *)

Definition discrete : Theory :=
  {| theoryId := "simple-olog"; theory_kind := "Discrete" |}.

Definition tabulator : Theory :=
  {| theoryId := "simple-schema"; theory_kind := "DiscreteTab" |}.

(** Scenario A: [Object(id=1, type=X)], [Morphism(id=2, type=f, dom=1,
    cod=1)]. *)
Definition scenario_A : list (ModelJudgment string string) := [
  object {| ob_id := "1"; ob_name := ""; obType := "X" |};
  morphism {| mor_id := "2"; mor_name := ""; morType := "f";
              dom := Some {| content := "1" |};
              cod := Some {| content := "1" |} |}
].

(** Scenario B: as A, with [cod=99]. *)
Definition scenario_B : list (ModelJudgment string string) := [
  object {| ob_id := "1"; ob_name := ""; obType := "X" |};
  morphism {| mor_id := "2"; mor_name := ""; morType := "f";
              dom := Some {| content := "1" |};
              cod := Some {| content := "99" |} |}
].

End Spec.

End Model.

(** ** Lower case on the letters A to Z

    Used where an example needs an instance of [toLowerCase] of JavaScript
    or of [lowercase] of Julia. *)

Module Letters.

Definition lower_char (c : ascii) : ascii :=
  let n := nat_of_ascii c in
  if (65 <=? n)%nat && (n <=? 90)%nat then ascii_of_nat (n + 32) else c.

Fixpoint lowercase (s : string) : string :=
  match s with
  | EmptyString => EmptyString
  | String c s' => String (lower_char c) (lowercase s')
  end.

End Letters.

(** ** Routes ([App.tsx], lines 81--114) *)

Module Routes.

(** The pages a route can render. *)
Inductive Component :=
| CreateModel
| model_document_editor
| analysis_document_editor
| HelperContainer
| help_index
| help_credits.

(** [RouteDefinition] of [@solidjs/router]: [matchFilters] gives, for the
    name of a parameter, the test its value must pass. *)
#[local] Unset Elimination Schemes.
Inductive RouteDefinition := {
  path : string;
  matchFilters : list (string * (string → bool));
  component : Component;
  children : list RouteDefinition
}.
#[local] Set Elimination Schemes.

Section Router.
(** [validate] of the package [uuid] and [String.prototype.toLowerCase]
    are not part of the repository. *)
Variable uuid_validate : string → bool.
Variable toLowerCase : string → string.

(** [refIsUUIDFilter], lines 81--83. *)
Definition refIsUUIDFilter : list (string * (string → bool)) :=
  [("ref", λ ref, uuid_validate ref)].

(** [routes], lines 85--114. *)
Definition routes : list RouteDefinition := [
  {| path := "/"; matchFilters := []; component := CreateModel;
     children := [] |};
  {| path := "/model/:ref"; matchFilters := refIsUUIDFilter;
     component := model_document_editor; children := [] |};
  {| path := "/analysis/:ref"; matchFilters := refIsUUIDFilter;
     component := analysis_document_editor; children := [] |};
  {| path := "/help"; matchFilters := []; component := HelperContainer;
     children := [
       {| path := "/"; matchFilters := []; component := help_index;
          children := [] |};
       {| path := "/credits"; matchFilters := [];
          component := help_credits; children := [] |} ] |}
].

(** [s.split("/").filter(Boolean)]: the non-empty pieces between
    slashes; [cur] is the piece being read. *)
Fixpoint split_path (s cur : string) : list string :=
  match s with
  | EmptyString => if bool_decide (cur = "") then [] else [cur]
  | String c s' =>
      if bool_decide (c = "/"%char) then
        (if bool_decide (cur = "") then [] else [cur]) ++ split_path s' ""
      else split_path s' (cur ++ String c "")%string
  end.

Definition segments (p : string) : list string := split_path p "".

(** [matchFilters[key]], [undefined] when the key has no filter. *)
Fixpoint matchFilter (filters : list (string * (string → bool)))
    (key : string) : option (string → bool) :=
  match filters with
  | [] => None
  | (k, f) :: rest => if bool_decide (k = key) then Some f
                      else matchFilter rest key
  end.

(** [matchSegment(input, filter)] of the router, for the two kinds of
    filter the table uses: none, and a function. *)
Definition matchSegment (input : string) (filter : option (string → bool))
  : bool :=
  match filter with
  | None => true
  | Some f => f input
  end.

(** The loop of the router's [createMatcher]: a segment that starts with
    a colon binds a parameter whose value must pass its filter, any
    other segment must be the location's segment up to case. *)
Fixpoint match_segments (filters : list (string * (string → bool)))
    (segs locSegments : list string) (params : list (string * string))
  : option (list (string * string)) :=
  match segs, locSegments with
  | [], _ => Some params
  | _ :: _, [] => None
  | String ":" key :: segs', loc :: locs' =>
      if matchSegment loc (matchFilter filters key)
      then match_segments filters segs' locs' (params ++ [(key, loc)])
      else None
  | seg :: segs', loc :: locs' =>
      if bool_decide (toLowerCase loc = toLowerCase seg)
      then match_segments filters segs' locs' params
      else None
  end.

(** [createMatcher(path, partial, matchFilters)] applied to a location
    given by its segments; a route with children matches a prefix.  No
    path of the table has a splat. *)
Definition createMatcher (r : RouteDefinition) (locSegments : list string)
  : option (list (string * string)) :=
  let segs := segments (path r) in
  let partial := negb (bool_decide (children r = [])) in
  if (length locSegments <? length segs)%nat then None
  else if (length segs <? length locSegments)%nat && negb partial then None
  else match_segments (matchFilters r) segs locSegments [].

(** The routes that load a document. *)
Definition document_route (r : RouteDefinition) : bool :=
  match component r with
  | model_document_editor | analysis_document_editor => true
  | _ => false
  end.
End Router.

(** *** A test for UUIDs, to run the router on *)

Module Example.

Definition is_hex (c : ascii) : bool :=
  let n := nat_of_ascii c in
  ((48 <=? n) && (n <=? 57) || (65 <=? n) && (n <=? 70)
   || (97 <=? n) && (n <=? 102))%nat.

(** Reads [n] hexadecimal digits and returns what follows them. *)
Fixpoint hex_run (n : nat) (s : string) : option string :=
  match n, s with
  | O, _ => Some s
  | S n', String c s' => if is_hex c then hex_run n' s' else None
  | S _, EmptyString => None
  end.

Definition dash (o : option string) : option string :=
  match o with
  | Some (String "-" s) => Some s
  | _ => None
  end.

(** The shape that [uuid.validate] asks for, groups of 8, 4, 4, 4 and 12
    hexadecimal digits between dashes (the package also restricts the
    digits that hold the version and the variant). *)
Definition uuid_shape (s : string) : bool :=
  match
    s1 ← dash (hex_run 8 s); s2 ← dash (hex_run 4 s1);
    s3 ← dash (hex_run 4 s2); s4 ← dash (hex_run 4 s3); hex_run 12 s4
  with
  | Some EmptyString => true
  | _ => false
  end.

Definition model_route : RouteDefinition :=
  {| path := "/model/:ref"; matchFilters := refIsUUIDFilter uuid_shape;
     component := model_document_editor; children := [] |}.

End Example.

End Routes.

(** ** Documents ([analysis/document.ts], [analysis_document_editor.tsx]) *)

Module Document.

Import Model.

(** [ExternRef], a typed pointer to another document. *)
Record ExternRef := {
  tag : string;
  refId : string;
  taxon : string
}.

(** Modelled from the spec: the cells of a notebook (section 3), declared in
    the [notebook] module, which is not among the sources. *)
Inductive Cell (T : Type) :=
| formal (id : Uuid) (content : T)
| rich_text (id : Uuid) (content : string)
| stem (id : Uuid).

Record Notebook (T : Type) := { cells : list (Cell T) }.
Arguments cells {T}.

(** Modelled from the spec: [newNotebook] of the [notebook] module, which is
    not among the sources (section 3: "a Notebook is created empty when its
    owning document is created"). *)
Definition newNotebook {T} : Notebook T := {| cells := [] |}.

Section Analysis.
(** [ModelAnalysis], the content of a formal cell of an analysis. *)
Context {ModelAnalysis : Type}.

(** [AnalysisDocument], [document.ts] lines 9--20. *)
Record AnalysisDocument := {
  name : string;
  type : string;
  modelRef : ExternRef;
  notebook : Notebook ModelAnalysis
}.

(** [newAnalysisDocument], [document.ts] lines 23--32. *)
Definition newAnalysisDocument (modelRefId : string) : AnalysisDocument :=
  {| name := "";
     type := "analysis";
     modelRef := {| tag := "extern-ref";
                    refId := modelRefId;
                    taxon := "model" |};
     notebook := newNotebook |}.
End Analysis.
Arguments AnalysisDocument : clear implicits.

End Document.

(** ** Loading the analysis page ([analysis_document_editor.tsx], 55--105) *)

Module AnalysisPage.

(** What a rejected promise carries. *)
Inductive Error :=
| InvariantFailed (message : string)
| TypeError (message : string)
| RetrieveFailed (refId : string).

(** An [async] computation that has settled. *)
Inductive Promise (A : Type) :=
| Rejected (e : Error)
| Resolved (a : A).
Arguments Rejected {A} e.
Arguments Resolved {A} a.

(** [await p] followed by [k]: a rejection is passed on. *)
#[export] Instance await : MBind Promise := λ A B k p,
  match p with
  | Rejected e => Rejected e
  | Resolved a => k a
  end.

(** [invariant(condition, message)] of [tiny-invariant] throws when the
    condition is false. *)
Definition invariant (condition : bool) (message : string) : Promise unit :=
  if condition then Resolved tt else Rejected (InvariantFailed message).

(** What is under the key [__extern__] of a reference to another
    document: [refId] is what the page reads and passes on; [taxon] is the
    kind of document the reference is declared to point at, which the page
    never reads. *)
Module Extern.
Record t := {
  refId : string;
  taxon : string
}.
End Extern.

(** A reference as the page reads it, [doc.modelRef.__extern__]: the key
    may be missing, as it is in the flat [{tag, refId, taxon}] that
    [newAnalysisDocument] of [analysis/document.ts] writes. *)
Record StoredRef := {
  __extern__ : option Extern.t
}.

(** A document as the store returns it.  [retrieveDoc<T>] casts it to [T]
    without looking at it, so every field may be missing; [None] is
    [undefined].  [rest] stands for the fields the page does not read. *)
Record StoredDocument {Rest : Type} := {
  type : option string;
  modelRef : option StoredRef;
  rest : Rest
}.
Arguments StoredDocument : clear implicits.

(** The collaborators of the page that are not among the sources:
    [retrieveDoc] of the [api] module, the handle of the replicated
    document and [enlivenModelDocument] of [model_document_editor].  The
    last one is called inside the [async] function, so whatever it throws
    rejects the resource: its result is a [Promise] too, and nothing is
    assumed about when it resolves. *)
Class Api := {
  Rest : Type;
  DocHandle : Type;
  LiveModelDocument : Type;
  retrieveDoc : string → Promise (StoredDocument Rest * DocHandle);
  whenReady : DocHandle → Promise unit;
  enlivenModelDocument :
    string → StoredDocument Rest → DocHandle → Promise LiveModelDocument
}.

Section Page.
Context `{A : Api}.

(** [LiveAnalysisDocument], lines 45--53. *)
Record LiveAnalysisDocument := {
  refId : string;
  doc : StoredDocument Rest;
  docHandle : DocHandle;
  liveModel : LiveModelDocument
}.

(** [`${doc.type}`] *)
Definition show_type (t : option string) : string :=
  match t with
  | Some s => s
  | None => "undefined"
  end.

(** [doc.modelRef.__extern__.refId], lines 74 and 78: reading [__extern__]
    of a [modelRef] that is missing, or [refId] of an [__extern__] that is
    missing, throws a [TypeError]. *)
Definition modelRef_refId (d : StoredDocument Rest) : Promise string :=
  match modelRef d with
  | None =>
      Rejected (TypeError
        "Cannot read properties of undefined (reading '__extern__')")
  | Some r =>
      match __extern__ r with
      | None =>
          Rejected (TypeError
            "Cannot read properties of undefined (reading 'refId')")
      | Some extern => Resolved (Extern.refId extern)
      end
  end.

(** The resource of [AnalysisPage], lines 64--90; [ref] is
    [params.ref]. *)
Definition AnalysisPage (ref : string) : Promise LiveAnalysisDocument :=
  '(doc, docHandle) ← retrieveDoc ref;
  _ ← whenReady docHandle;
  _ ← invariant (bool_decide (type doc = Some "analysis"))
        ("Expected analysis document, got type: "
         ++ show_type (type doc))%string;
  modelRefId ← modelRef_refId doc;
  '(modelDoc, modelDocHandle) ← retrieveDoc modelRefId;
  liveModel ← enlivenModelDocument modelRefId modelDoc modelDocHandle;
  Resolved {| refId := ref;
              doc := doc;
              docHandle := docHandle;
              liveModel := liveModel |}.
End Page.

(** *** A store of documents, to run the page on *)

Module Example.

(** A stand-in for [LiveModelDocument]: what [enlivenModelDocument] was
    called with, lines 77--82. *)
Record Live := {
  live_refId : string;
  live_doc : StoredDocument unit;
  live_handle : string
}.

(** A store that finds a document under its reference or fails, with
    handles that are ready at once, and an [enlivenModelDocument] that
    keeps what it is given and never throws. *)
Definition api (server : gmap string (StoredDocument unit)) : Api := {|
  Rest := unit;
  DocHandle := string;
  LiveModelDocument := Live;
  retrieveDoc := λ refId,
    match server !! refId with
    | Some d => Resolved (d, refId)
    | None => Rejected (RetrieveFailed refId)
    end;
  whenReady := λ _, Resolved tt;
  enlivenModelDocument := λ refId doc handle,
    Resolved {| live_refId := refId; live_doc := doc; live_handle := handle |}
|}.

(** The reference [{__extern__: {refId: target, taxon: "model"}}]. *)
Definition model_ref (target : string) : StoredRef :=
  {| __extern__ := Some {| Extern.refId := target;
                           Extern.taxon := "model" |} |}.

(** An analysis whose [modelRef], of taxon ["model"], points at
    [target]. *)
Definition analysis (target : string) : StoredDocument unit :=
  {| type := Some "analysis";
     modelRef := Some (model_ref target);
     rest := tt |}.

(** A store in which the analysis ["a1"] refers to ["a2"], which is an
    analysis too. *)
Definition server : gmap string (StoredDocument unit) :=
  <["a1" := analysis "a2"]> (<["a2" := analysis "a1"]> ∅).

(** A document with no [type] at all, and a store in which an analysis
    refers to it. *)
Definition untyped : StoredDocument unit :=
  {| type := None; modelRef := None; rest := tt |}.

Definition server_untyped : gmap string (StoredDocument unit) :=
  <["a1" := analysis "m1"]> (<["m1" := untyped]> ∅).

End Example.

End AnalysisPage.

(** ** Computations that depend on a validation result *)

Module Analysis.

Import Model.

(** A JavaScript object used as a record from strings to values, with its
    keys in insertion order. *)
Definition JsRecord (V : Type) := list (string * V).

Definition keys {V} (o : JsRecord V) : list string := map fst o.

(** [o[k]], [undefined] when the key is missing. *)
Fixpoint get {V} (o : JsRecord V) (k : string) : option V :=
  match o with
  | [] => None
  | (k', v) :: o' => if bool_decide (k' = k) then Some v else get o' k
  end.

(** A value used as a condition: [undefined] and [false] are falsy. *)
Definition truthy (v : option bool) : bool :=
  match v with
  | Some b => b
  | None => false
  end.

Section Cell.
(** [ValidationResult] is declared in [model_document_editor], which is
    not among the sources; the cell editor reads its [tag] and, when the
    tag is ["validated"], its [value]. *)
Context {ValidatedModel : Type}.

Record ValidationResult := {
  tag : string;
  value : ValidatedModel
}.

(** The memo [validatedModel] of [ModelAnalysisCellEditor],
    [analysis_document_editor.tsx] lines 141--148; [None] is [null]. *)
Definition validatedModel (validationResult : ValidationResult)
  : option ValidatedModel :=
  let res := validationResult in
  if bool_decide (tag res = "validated") then Some (value res)
  else None.
End Cell.
Arguments ValidationResult : clear implicits.

(** What [makeSimulationData] takes from modules that are not among the
    sources: the diagram of [catlog-wasm], the judgments of a diagram and
    [fromCatlogDiagram] of the [diagram] module, and the numbers of
    JavaScript. *)
Class Diagrams := {
  DblModelDiagram : Type;
  DiagramJudgment : Type;
  QualifiedName : Type;
  InvalidDiagram : Type;
  ModelJudgment : Type;
  number : Type;
  fromCatlogDiagram :
    DblModelDiagram → (Uuid → option QualifiedName) → list DiagramJudgment
}.

Section Simulation.
Context `{D : Diagrams}.

(** [DecapodesContent], [App.tsx] lines 496--504, less the settings of
    the kernel. *)
Record DecapodesContent := {
  scalars : JsRecord number;
  plotVariables : JsRecord bool
}.

(** [SimulationData], [App.tsx] lines 723--735. *)
Record SimulationData := {
  sim_diagram : list DiagramJudgment;
  sim_model : list ModelJudgment;
  sim_scalars : JsRecord number;
  sim_plotVariables : list string
}.

Record ValidatedDiagram := {
  diagram : DblModelDiagram;
  result : JsResult unit (list InvalidDiagram)
}.

(** The accessors of a [LiveDiagramDocument] that [makeSimulationData]
    calls, with the values they return when it runs. *)
Record LiveDiagramDocument := {
  validatedDiagram : option ValidatedDiagram;
  objectIndex : gmap Uuid QualifiedName;
  formalJudgments : list ModelJudgment
}.

(** [validatedDiagram?.result.tag] *)
Definition optional_result_tag (v : option ValidatedDiagram)
  : option string :=
  match v with
  | Some vd => Some (result_tag (result vd))
  | None => None
  end.

(** [makeSimulationData], [App.tsx] lines 759--775; [None] is
    [undefined]. *)
Definition makeSimulationData (liveDiagram : LiveDiagramDocument)
    (content : DecapodesContent) : option SimulationData :=
  let validatedDiagram := validatedDiagram liveDiagram in
  if bool_decide (optional_result_tag validatedDiagram ≠ Some "Ok")
  then None
  else
    match validatedDiagram with
    | Some vd => Some {|
        sim_diagram := fromCatlogDiagram (diagram vd)
                         (λ id, objectIndex liveDiagram !! id);
        sim_model := formalJudgments liveDiagram;
        sim_scalars := scalars content;
        sim_plotVariables :=
          filter (λ v, truthy (get (plotVariables content) v) = true)
                 (keys (plotVariables content)) |}
    | None => None
    end.
End Simulation.

(** *** A diagram whose validation failed *)

Module Example.

Definition diagrams : Diagrams := {|
  DblModelDiagram := unit;
  DiagramJudgment := string;
  QualifiedName := string;
  InvalidDiagram := string;
  ModelJudgment := string;
  number := Z;
  fromCatlogDiagram := λ _ _, []
|}.
#[local] Existing Instance diagrams.

Definition errored : ValidationResult (option nat) :=
  {| tag := "errored"; value := None |}.

Definition invalid_diagram : LiveDiagramDocument :=
  {| validatedDiagram := Some {| diagram := tt;
                                 result := Err ["dangling"] |};
     objectIndex := ∅;
     formalJudgments := [] |}.

Definition content : DecapodesContent :=
  {| scalars := [("k", 2%Z)]; plotVariables := [("u", true)] |}.

End Example.

End Analysis.

(** ** The Decapodes service ([decapodes.jl]) *)

Module Decapodes.

Abbreviation Symbol := string.

(** The exceptions the service can raise: its own [ImplError] (lines
    33--37) and those of Julia for a missing key and for a call that has
    no method. *)
Inductive Exception :=
| ImplError (name : string)
| KeyError (key : string)
| MethodError (call : string).

(** A call either throws or returns. *)
Inductive Result (A : Type) :=
| Throw (e : Exception)
| Return (a : A).
Arguments Throw {A} e.
Arguments Return {A} a.

#[export] Instance result_bind : MBind Result := λ A B k r,
  match r with
  | Throw e => Throw e
  | Return a => k a
  end.

Definition throws {A} (r : Result A) : Prop := ∃ e, r = Throw e.

(** A cell of the model or of the diagram, a [JSON3.Object] with the keys
    the service reads.  [tag] is [None] when the key is missing; [over],
    [dom] and [cod] hold the [content] of the object they refer to and
    are [None] when the JSON value is [null]. *)
Record Cell := {
  tag : option string;
  id : string;
  name : string;
  over : option string;
  dom : option string;
  cod : option string
}.

(** [x[:tag]] *)
Definition get_tag (x : Cell) : Result string :=
  match tag x with
  | Some t => Return t
  | None => Throw (KeyError "tag")
  end.

(** [x[key][:content]]: indexing [nothing] has no method. *)
Definition get_content (v : option string) : Result string :=
  match v with
  | Some c => Return c
  | None => Throw (MethodError "getindex(::Nothing, ::Symbol)")
  end.

(** [dict[key]] on a [Dict] *)
Definition getindex {V} (dict : gmap string V) (key : string) : Result V :=
  match dict !! key with
  | Some v => Return v
  | None => Throw (KeyError key)
  end.

(** The active patterns [IsObject] and [IsMorphism], lines 102--108. *)
Definition IsObject (x : Cell) : Result (option Cell) :=
  t ← get_tag x;
  Return (if bool_decide (t = "object") then Some x else None).

Definition IsMorphism (x : Cell) : Result (option Cell) :=
  t ← get_tag x;
  Return (if bool_decide (t = "morphism") then Some x else None).

(** [replace(name, " " => "")] *)
Fixpoint remove_spaces (s : string) : string :=
  match s with
  | EmptyString => EmptyString
  | String c s' => if bool_decide (c = " "%char) then remove_spaces s'
                   else String c (remove_spaces s')
  end.

(** *** Theory building, lines 43--184 *)

(** [ElementData], with its subtypes [ObData] and [HomData]. *)
Inductive ElementData :=
| ObData
| HomData (dom cod : string).

Record TheoryElement := {
  elem_name : option Symbol;
  val : option ElementData
}.

(** [Theory] wraps a dictionary. *)
Record Theory := { data : gmap string TheoryElement }.

Section TheoryBuilding.
(** [Base.lowercase] of Julia. *)
Variable lowercase : string → string.

(** [to_decapode_theory(::Val{:Ob}, name)], lines 50--63. *)
Definition to_decapode_theory_Ob (name : string) : Result Symbol :=
  let x := lowercase name in
  if bool_decide (x = "0-form") then Return "Form0"
  else if bool_decide (x = "1-form") then Return "Form1"
  else if bool_decide (x = "2-form") then Return "Form2"
  else if bool_decide (x = "primal 0-form") then Return "Form0"
  else if bool_decide (x = "primal 1-form") then Return "Form1"
  else if bool_decide (x = "primal 2-form") then Return "Form2"
  else if bool_decide (x = "dual 0-form") then Return "DualForm0"
  else if bool_decide (x = "dual 1-form") then Return "DualForm1"
  else if bool_decide (x = "dual 2-form") then Return "DualForm2"
  else Throw (ImplError x).

(** [to_decapode_theory(::Val{:Hom}, name)], lines 66--93. *)
Definition to_decapode_theory_Hom (name : string) : Result Symbol :=
  let x := remove_spaces name in
  if bool_decide (x = "∂t") then Return "∂ₜ"
  else if bool_decide (x = "∂ₜ") then Return "∂ₜ"
  else if bool_decide (x = "Δ") then Return "Δ"
  else if bool_decide (x = "Δ⁻¹") then Return "Δ⁻¹"
  else if bool_decide (x = "d") then Return "d₀"
  else if bool_decide (x = "d*") then Return "dual_d₁"
  else if bool_decide (x = "d̃₁") then Return "dual_d₁"
  else if bool_decide (x = "⋆") then Return "⋆₁"
  else if bool_decide (x = "⋆⁻¹") then Return "⋆₀⁻¹"
  else if bool_decide (x = "⋆₀⁻¹") then Return "⋆₀⁻¹"
  else if bool_decide (x = "★") then Return "⋆₁"
  else if bool_decide (x = "★⁻¹") then Return "⋆₀⁻¹"
  else if bool_decide (x = "diffusivity") then Return "diffusivity"
  else if bool_decide (x = "d₀") then Return "d₀"
  else if bool_decide (x = "d12") then Return "d₁"
  else if bool_decide (x = "⋆1") then Return "⋆₁"
  else if bool_decide (x = "⋆2") then Return "⋆₂"
  else if bool_decide (x = "♭♯") then Return "♭♯"
  else if bool_decide (x = "lamb") then Return "dpsw"
  else if bool_decide (x = "-") then Return "neg"
  else Throw (ImplError x).

(** [add_to_theory!(theory, content, ::Val{:Ob})], lines 157--160. *)
Definition add_to_theory_Ob (theory : Theory) (content : Cell)
  : Result Theory :=
  name ← to_decapode_theory_Ob (name content);
  Return {| data := <[id content :=
                       {| elem_name := Some name; val := None |}]>
                    (data theory) |}.

(** [add_to_theory!(theory, content, ::Val{:Hom})], lines 162--167. *)
Definition add_to_theory_Hom (theory : Theory) (content : Cell)
  : Result Theory :=
  name ← to_decapode_theory_Hom (name content);
  dom ← get_content (dom content);
  cod ← get_content (cod content);
  Return {| data := <[id content :=
                       {| elem_name := Some name;
                          val := Some (HomData dom cod) |}]>
                    (data theory) |}.

(** The body of the [foreach] of [Theory(model)], lines 176--180.  In
    the last branch [ImplError(x)] is applied to the cell, which is not
    a [String]: the call has no method. *)
Definition Theory_cell (theory : Theory) (cell : Cell) : Result Theory :=
  o ← IsObject cell;
  match o with
  | Some content => add_to_theory_Ob theory content
  | None =>
      m ← IsMorphism cell;
      match m with
      | Some content => add_to_theory_Hom theory content
      | None => Throw (MethodError "convert(::Type{String}, ::JSON3.Object)")
      end
  end.

(** [foreach(xs) do x .. end] on a state that the body updates. *)
Fixpoint foreach {S A} (body : S → A → Result S) (s : S) (xs : list A)
  : Result S :=
  match xs with
  | [] => Return s
  | x :: xs' => s' ← body s x; foreach body s' xs'
  end.

(** [Theory(model)], lines 173--183. *)
Definition Theory_of (model : list Cell) : Result Theory :=
  foreach Theory_cell {| data := ∅ |} model.
End TheoryBuilding.

(** *** Model building, lines 186--267 *)

(** The tables of a [SummationDecapode] that the service fills.  A part
    is named by its position in its table, counted from 1. *)
Record VarRow := { var_name : Symbol; var_type : Symbol }.
Record Op1Row := { src : nat; tgt : nat; op1 : Symbol }.

Record SummationDecapode := {
  Var : list VarRow;
  TVar : list nat;
  Op1 : list Op1Row
}.

(** [SummationDecapode(parse_decapode(quote end))] *)
Definition empty_decapode : SummationDecapode :=
  {| Var := []; TVar := []; Op1 := [] |}.

(** [add_part!(d, :Var, ..)] returns the new part. *)
Definition add_Var (d : SummationDecapode) (row : VarRow)
  : nat * SummationDecapode :=
  (S (length (Var d)),
   {| Var := Var d ++ [row]; TVar := TVar d; Op1 := Op1 d |}).

Definition add_Op1 (d : SummationDecapode) (row : Op1Row)
  : SummationDecapode :=
  {| Var := Var d; TVar := TVar d; Op1 := Op1 d ++ [row] |}.

Definition add_TVar (d : SummationDecapode) (incl : nat)
  : SummationDecapode :=
  {| Var := Var d; TVar := TVar d ++ [incl]; Op1 := Op1 d |}.

(** [Int] is a 64-bit integer: [+] wraps around. *)
Definition wrap64 (z : Z) : Z := ((z + 2 ^ 63) mod 2 ^ 64 - 2 ^ 63)%Z.

(** [string(n)] in [Symbol("•$(n)")] *)
Definition string_of_Int (n : Z) : string :=
  NilZero.string_of_int (Z.to_int n).

(** [Symbol("•$(n)")] *)
Definition anonymous_name (n : Z) : Symbol := ("•" ++ string_of_Int n)%string.

Section ModelBuilding.
(** The values of the scalars, numbers of the JSON input. *)
Context {Scalar : Type}.

(** What [Decapode] builds: the decapode, the dictionary from UUIDs to
    parts, the counter [nc] of anonymous variables and the scalar
    closures [x -> scalar * x], each held by its scalar. *)
Record Build := {
  pode : SummationDecapode;
  vars : gmap string nat;
  nc : Z;
  anons : gmap Symbol Scalar
}.

(** The names of the variables built so far. *)
Definition var_names (b : Build) : list Symbol :=
  map var_name (Var (pode b)).

(** [nameof(t::TheoryElement)] used as an attribute of type [Symbol]. *)
Definition nameof_elem (t : TheoryElement) : Result Symbol :=
  match elem_name t with
  | Some n => Return n
  | None => Throw (MethodError "convert(::Type{Symbol}, ::Nothing)")
  end.

(** [add_to_pode!(d, vars, theory, content, nc, ::Val{:Ob})], lines
    191--210. *)
Definition add_to_pode_Ob (b : Build) (theory : Theory) (content : Cell)
  : Result Build :=
  key ← get_content (over content);
  theory_elem ← getindex (data theory) key;
  let '(nc', name) :=
    if bool_decide (name content = "")
    then let n := wrap64 (nc b + 1) in (n, anonymous_name n)
    else (nc b, name content) in
  type ← nameof_elem theory_elem;
  let '(id', d) := add_Var (pode b) {| var_name := name; var_type := type |} in
  Return {| pode := d;
            vars := <[id content := id']> (vars b);
            nc := nc';
            anons := anons b |}.

(** [nameof(theory, content)], lines 212--214: [Symbol(nothing)] is the
    symbol [nothing]. *)
Definition nameof (theory : Theory) (content : Cell) : Result Symbol :=
  key ← get_content (over content);
  elem ← getindex (data theory) key;
  Return (default "nothing" (elem_name elem)).

(** [add_to_pode!(d, vars, theory, content, scalars, anons, ::Val{:Hom})],
    lines 217--244. *)
Definition add_to_pode_Hom (b : Build) (theory : Theory) (content : Cell)
    (scalars : gmap string Scalar) : Result Build :=
  dom ← get_content (dom content);
  cod ← get_content (cod content);
  match vars b !! dom, vars b !! cod with
  | Some vdom, Some vcod =>
      op1 ← nameof theory content;
      let d := add_Op1 (pode b) {| src := vdom; tgt := vcod; op1 := op1 |} in
      let d := if bool_decide (op1 = "∂ₜ") then add_TVar d vcod else d in
      key ← get_content (over content);
      (* [!isempty(scalars) && haskey(scalars, key)] *)
      let anons :=
        match scalars !! key with
        | Some scalar => <[op1 := scalar]> (anons b)
        | None => anons b
        end in
      Return {| pode := d; vars := vars b; nc := nc b; anons := anons |}
  | _, _ => Return b
  end.

(** The body of the [foreach] of [Decapode], lines 258--263.  In the last
    branch [cell[:content]] is read, a key the cells do not have. *)
Definition Decapode_cell (theory : Theory) (scalars : gmap string Scalar)
    (b : Build) (cell : Cell) : Result Build :=
  o ← IsObject cell;
  match o with
  | Some content => add_to_pode_Ob b theory content
  | None =>
      m ← IsMorphism cell;
      match m with
      | Some content => add_to_pode_Hom b theory content scalars
      | None => Throw (KeyError "content")
      end
  end.

(** [Decapode(diagram, theory; scalars)], lines 250--266. *)
Definition Decapode (diagram : list Cell) (theory : Theory)
    (scalars : gmap string Scalar)
  : Result (SummationDecapode * gmap Symbol Scalar * gmap string nat) :=
  b ← foreach (Decapode_cell theory scalars)
        {| pode := empty_decapode; vars := ∅; nc := 0; anons := ∅ |}
        diagram;
  Return (pode b, anons b, vars b).
End ModelBuilding.


(** The objects of a diagram, in order: the cells that [IsObject]
    accepts. *)
Definition is_object (c : Cell) : bool := bool_decide (tag c = Some "object").

Definition objects (diagram : list Cell) : list Cell :=
  List.filter is_object diagram.

Definition anonymous (c : Cell) : bool := bool_decide (name c = "").

Definition count_anonymous (objs : list Cell) : nat :=
  length (List.filter anonymous objs).

(** The number of anonymous objects among the first [n] objects. *)
Definition anonymous_upto (n : nat) (objs : list Cell) : nat :=
  length (List.filter anonymous (take n objs)).

(** The names of the variables made from a list of objects when [n]
    anonymous variables have been made before: an anonymous object takes
    the next number, a named one its name. *)
Fixpoint names_from (n : Z) (objs : list Cell) : list Symbol :=
  match objs with
  | [] => []
  | c :: objs' =>
      if anonymous c
      then anonymous_name (n + 1) :: names_from (n + 1) objs'
      else name c :: names_from n objs'
  end.

(** A diagram that [Decapode] can build over a theory: every cell is an
    object or a morphism, every object is over an element of the theory
    that has a name, and every morphism has its [dom] and [cod] set and
    is over an element of the theory. *)
Definition buildable (theory : Theory) (c : Cell) : Prop :=
  (tag c = Some "object"
   ∧ ∃ key elem n, over c = Some key ∧ data theory !! key = Some elem
                   ∧ elem_name elem = Some n)
  ∨ (tag c = Some "morphism"
     ∧ is_Some (dom c) ∧ is_Some (cod c)
     ∧ ∃ key, over c = Some key ∧ is_Some (data theory !! key)).

(** *** An input to run the service on *)

Module Example.

Definition lowercase : string → string := Letters.lowercase.

(** The model: one type of object and one type of morphism on it. *)
Definition model : list Cell := [
  {| tag := Some "object"; id := "form0"; name := "0-form";
     over := None; dom := None; cod := None |};
  {| tag := Some "morphism"; id := "dt"; name := "∂t";
     over := None; dom := Some "form0"; cod := Some "form0" |}
].

(** A diagram with one variable and a morphism from it to a variable
    that is not declared. *)
Definition dangling : list Cell := [
  {| tag := Some "object"; id := "u"; name := "u";
     over := Some "form0"; dom := None; cod := None |};
  {| tag := Some "morphism"; id := "f"; name := "";
     over := Some "dt"; dom := Some "u"; cod := Some "missing" |}
].

(** A diagram with two anonymous variables around a named one. *)
Definition diagram : list Cell := [
  {| tag := Some "object"; id := "x"; name := "";
     over := Some "form0"; dom := None; cod := None |};
  {| tag := Some "object"; id := "u"; name := "u";
     over := Some "form0"; dom := None; cod := None |};
  {| tag := Some "object"; id := "y"; name := "";
     over := Some "form0"; dom := None; cod := None |};
  {| tag := Some "morphism"; id := "f"; name := "";
     over := Some "dt"; dom := Some "u"; cod := Some "y" |}
].

Definition theory : Theory :=
  match Theory_of lowercase model with
  | Return t => t
  | Throw _ => {| data := ∅ |}
  end.

End Example.

End Decapodes.


(** ** What the Decapodes service builds, cell by cell *)

Module DecapodesTables.

Import Decapodes.

(** The symbols on the right of [to_decapode_theory(::Val{:Ob}, name)]. *)
Definition Ob_symbols : list Symbol :=
  ["Form0"; "Form1"; "Form2"; "DualForm0"; "DualForm1"; "DualForm2"].

(** The symbols on the right of [to_decapode_theory(::Val{:Hom}, name)]. *)
Definition Hom_symbols : list Symbol :=
  ["∂ₜ"; "Δ"; "Δ⁻¹"; "d₀"; "dual_d₁"; "⋆₁"; "⋆₀⁻¹"; "diffusivity"; "d₁";
   "⋆₂"; "♭♯"; "dpsw"; "neg"].

(** The ids of the cells of a list, in order. *)
Definition ids (cells : list Cell) : list string := map id cells.

Definition is_morphism (c : Cell) : bool :=
  bool_decide (tag c = Some "morphism").

(** The morphisms of a diagram whose [dom] and [cod] are both ids of
    objects that come earlier in the diagram; [seen] holds the ids of the
    objects met so far. *)
Fixpoint kept (seen : list string) (diagram : list Cell) : list Cell :=
  match diagram with
  | [] => []
  | c :: cs =>
      if is_object c then kept (seen ++ [id c]) cs
      else
        match dom c, cod c with
        | Some d, Some d' =>
            if bool_decide (d ∈ seen) && bool_decide (d' ∈ seen)
            then c :: kept seen cs
            else kept seen cs
        | _, _ => kept seen cs
        end
  end.

(** The name of the element of the theory a cell is over, as
    [nameof(theory, content)] returns it when the element is there. *)
Definition op1_of (theory : Theory) (c : Cell) : Symbol :=
  match over c with
  | Some key =>
      match data theory !! key with
      | Some elem => default "nothing" (elem_name elem)
      | None => ""
      end
  | None => ""
  end.

(** The element that [add_to_theory!] stores for a cell of the model: for
    an object the symbol of its name, for a morphism the symbol of its name
    with the ids of its ends. *)
Definition described_by (lowercase : string → string) (c : Cell)
    (e : TheoryElement) : Prop :=
  (is_object c = true
   ∧ ∃ sym, to_decapode_theory_Ob lowercase (name c) = Return sym
            ∧ e = {| elem_name := Some sym; val := None |})
  ∨ (is_object c = false ∧ is_morphism c = true
     ∧ ∃ sym d d', to_decapode_theory_Hom (name c) = Return sym
                   ∧ dom c = Some d ∧ cod c = Some d'
                   ∧ e = {| elem_name := Some sym;
                            val := Some (HomData d d') |}).

(** A part named by an operation or by the dictionary is a row of the
    table of variables. *)
Definition in_range (d : SummationDecapode) (part : nat) : Prop :=
  (1 ≤ part ≤ length (Var d))%nat.

(** The operations that are derivatives in time. *)
Definition is_dt (r : Op1Row) : bool := bool_decide (op1 r = "∂ₜ").

Section Invariant.
Context {Scalar : Type}.

(** The state [Decapode] starts from. *)
Definition initial : Build (Scalar := Scalar) :=
  {| pode := empty_decapode; vars := ∅; nc := 0; anons := ∅ |}.

(** What holds of the state of [Decapode] once the cells [done] have been
    gone through. *)
Record build_invariant (theory : Theory) (scalars : gmap string Scalar)
    (done : list Cell) (b : Build (Scalar := Scalar)) : Prop := {
  inv_length : length (Var (pode b)) = length (objects done);
  inv_keys : ∀ k, is_Some (vars b !! k) ↔ k ∈ ids (objects done);
  inv_vars : ∀ k v, vars b !! k = Some v →
             (1 ≤ v)%nat ∧ ∃ c, objects done !! pred v = Some c ∧ id c = k;
  inv_position : NoDup (ids (objects done)) →
                 ∀ i c, objects done !! i = Some c →
                        vars b !! id c = Some (S i);
  inv_types : ∀ i c, objects done !! i = Some c →
              ∃ key elem, over c = Some key ∧ data theory !! key = Some elem
                          ∧ var_type <$> Var (pode b) !! i = elem_name elem;
  inv_ops : Forall (λ r, in_range (pode b) (src r) ∧ in_range (pode b) (tgt r))
                   (Op1 (pode b));
  inv_tvar : TVar (pode b) = map tgt (List.filter is_dt (Op1 (pode b)));
  inv_kept : map op1 (Op1 (pode b)) = map (op1_of theory) (kept [] done);
  inv_anons : ∀ s v, anons b !! s = Some v →
              s ∈ map op1 (Op1 (pode b)) ∧ ∃ key, scalars !! key = Some v
}.
End Invariant.

End DecapodesTables.

(** ** Creating a model and going to it ([App.tsx], lines 59--79) *)

Module Navigation.

Import AnalysisPage.

(** What [CreateModel] renders. *)
Inductive View :=
| ErrorSpan (e : Error)
| Navigate (href : string)
| Nothing.

Section CreateModel.
(** The content of an [Err] of the RPC. *)
Context {E : Type}.

(** The resource [ref] of [CreateModel], lines 65--69: [mutate] is what
    [rpc.new_ref.mutate(init)] settles to.  The invariant on the tag of the
    result throws on an [Err], so [result.content] is read on an [Ok]
    only. *)
Definition CreateModel_ref (mutate : Promise (JsResult string E))
  : Promise string :=
  result ← mutate;
  _ ← invariant (bool_decide (result_tag result = "Ok"))
        "Failed to create model";
  match result with
  | Ok content => Resolved content
  | Err _ => Rejected (InvariantFailed "Failed to create model")
  end.

(** The [Switch] of [CreateModel], lines 72--77: the first [Match] whose
    condition is truthy is rendered.  [ref] is [None] while the resource is
    loading; the empty string is falsy. *)
Definition CreateModel (ref : option (Promise string)) : View :=
  match ref with
  | Some (Rejected e) => ErrorSpan e
  | Some (Resolved r) =>
      if bool_decide (r = "") then Nothing
      else Navigate ("/model/" ++ r)%string
  | None => Nothing
  end.
End CreateModel.





(** The route of the models in [routes]. *)
Definition model_route (uuid_validate : string → bool)
  : Routes.RouteDefinition :=
  {| Routes.path := "/model/:ref";
     Routes.matchFilters := Routes.refIsUUIDFilter uuid_validate;
     Routes.component := Routes.model_document_editor;
     Routes.children := [] |}.

End Navigation.

(** ** More inputs to run the code on *)

Module Inputs.

(** A store in which the analysis ["a1"] refers to a document that is
    not there, the analysis ["a3"] has no [modelRef], and the [modelRef]
    of the analysis ["a4"] has no [__extern__]. *)
Definition server_orphan
  : gmap string (AnalysisPage.StoredDocument unit) :=
  <["a1" := AnalysisPage.Example.analysis "zz"]>
    (<["a3" := {| AnalysisPage.type := Some "analysis";
                  AnalysisPage.modelRef := None;
                  AnalysisPage.rest := tt |}]>
       (<["a4" := {| AnalysisPage.type := Some "analysis";
                     AnalysisPage.modelRef :=
                       Some {| AnalysisPage.__extern__ := None |};
                     AnalysisPage.rest := tt |}]> ∅)).

(** A model document, and a store in which the analysis ["a1"] refers
    to it. *)
Definition model_document : AnalysisPage.StoredDocument unit :=
  {| AnalysisPage.type := Some "model";
     AnalysisPage.modelRef := None;
     AnalysisPage.rest := tt |}.

Definition server_model
  : gmap string (AnalysisPage.StoredDocument unit) :=
  <["a1" := AnalysisPage.Example.analysis "m1"]>
    (<["m1" := model_document]> ∅).



(** A diagram whose validation succeeded. *)
Definition valid_diagram
  : Analysis.LiveDiagramDocument (D := Analysis.Example.diagrams) :=
  @Analysis.Build_LiveDiagramDocument Analysis.Example.diagrams
    (Some (@Analysis.Build_ValidatedDiagram Analysis.Example.diagrams
             tt (Ok tt)))
    ∅ ["judgment"].

(** A choice of variables to plot: [u] and [w] are, [v] is not. *)
Definition plot_content
  : Analysis.DecapodesContent (D := Analysis.Example.diagrams) :=
  @Analysis.Build_DecapodesContent Analysis.Example.diagrams
    [("k", 2%Z)] [("u", true); ("v", false); ("w", true)].

(** A model with a morphism that the editor has just made: its [dom] and
    [cod] are still [null]. *)
Definition unfilled_model : list Decapodes.Cell := [
  {| Decapodes.tag := Some "object"; Decapodes.id := "form0";
     Decapodes.name := "0-form"; Decapodes.over := None;
     Decapodes.dom := None; Decapodes.cod := None |};
  {| Decapodes.tag := Some "morphism"; Decapodes.id := "dt";
     Decapodes.name := "∂t"; Decapodes.over := None;
     Decapodes.dom := None; Decapodes.cod := None |}
].

(** A diagram with an object over a key that the theory of the example
    does not have. *)
Definition orphan_diagram : list Decapodes.Cell := [
  {| Decapodes.tag := Some "object"; Decapodes.id := "u";
     Decapodes.name := "u"; Decapodes.over := Some "form9";
     Decapodes.dom := None; Decapodes.cod := None |}
].

(** The two cells of the diagram [dangling] of the example. *)
Definition named_u : Decapodes.Cell :=
  {| Decapodes.tag := Some "object"; Decapodes.id := "u";
     Decapodes.name := "u"; Decapodes.over := Some "form0";
     Decapodes.dom := None; Decapodes.cod := None |}.

Definition dangling_f : Decapodes.Cell :=
  {| Decapodes.tag := Some "morphism"; Decapodes.id := "f";
     Decapodes.name := ""; Decapodes.over := Some "dt";
     Decapodes.dom := Some "u"; Decapodes.cod := Some "missing" |}.

(** What [Decapode] returns on the diagram of the example. *)
Definition built : Decapodes.SummationDecapode :=
  {| Decapodes.Var :=
       [{| Decapodes.var_name := "•1"; Decapodes.var_type := "Form0" |};
        {| Decapodes.var_name := "u"; Decapodes.var_type := "Form0" |};
        {| Decapodes.var_name := "•2"; Decapodes.var_type := "Form0" |}];
     Decapodes.TVar := [3%nat];
     Decapodes.Op1 :=
       [{| Decapodes.src := 2; Decapodes.tgt := 3;
           Decapodes.op1 := "∂ₜ" |}] |}.

Definition built_vars : gmap string nat :=
  <["y" := 3%nat]> (<["u" := 2%nat]> (<["x" := 1%nat]> ∅)).

End Inputs.

(** * Properties *)

(** ** The store *)

Module StoreFacts.

Import Store.

Section WithObj.
Context {Obj : Type}.
Implicit Types (σ : store Obj) (r : ref).

Lemma modify_allocated σ r (o : Obj) f :
  σ !! r = Some o → modify r f σ = (tt, <[r := f o]> σ).
Proof. intros Hr. unfold modify. by rewrite Hr. Qed.

(** A loop whose every turn mutates one object folds the turns over the
    content of that object and leaves the other objects alone. *)
Lemma for_of_modify {A} (xs : list A) (step : Obj → A → Obj) σ r o :
  σ !! r = Some o →
  for_of xs (λ x, modify r (λ m, step m x)) σ
  = (tt, <[r := foldl step o xs]> σ).
Proof.
  revert σ o. induction xs as [|x xs IH]; intros σ o Hr; simpl.
  - unfold ret. by rewrite list_insert_id.
  - unfold bind. rewrite (modify_allocated _ _ o) by done.
    rewrite (IH _ (step o x)).
    + by rewrite list_insert_insert_eq.
    + apply list_lookup_insert_eq. by eapply lookup_lt_Some.
Qed.

Lemma for_of_ext {A} (xs : list A) (f g : A → Eff Obj unit) σ :
  (∀ x σ', f x σ' = g x σ') → for_of xs f σ = for_of xs g σ.
Proof.
  intros Hfg. revert σ. induction xs as [|x xs IH]; intros σ; simpl.
  - done.
  - unfold bind. rewrite Hfg. destruct (g x σ) as [[] σ']. apply IH.
Qed.

Lemma insert_fresh σ (o o' : Obj) :
  <[length σ := o']> (σ ++ [o]) = σ ++ [o'].
Proof.
  rewrite insert_app_r_alt by lia. by rewrite Nat.sub_diag.
Qed.

Lemma lookup_fresh σ (o : Obj) : (σ ++ [o]) !! length σ = Some o.
Proof. rewrite lookup_app_r by lia. by rewrite Nat.sub_diag. Qed.
End WithObj.

End StoreFacts.

(** ** Validation of a model *)

Module ModelFacts.

Import Model StoreFacts.

Section Generic.
Context `{W : Wasm}.
Implicit Types (σ : Store.store DblModel).

(** [catlogModel] allocates one object and folds the judgments over it
    in the order of the sequence; nothing else in the store changes. *)
Lemma catlogModel_fold theory (judgments : list (ModelJudgment ObType MorType)) σ :
  catlogModel theory judgments σ
  = (length σ, σ ++ [foldl add_judgment (DblModel_new theory) judgments]).
Proof.
  unfold catlogModel, Store.bind, Store.alloc, Store.ret.
  rewrite (for_of_ext _ _
             (λ x, Store.modify (length σ) (λ m, add_judgment m x))).
  - rewrite (for_of_modify _ _ _ _ (DblModel_new theory))
      by apply lookup_fresh.
    by rewrite insert_fresh.
  - by intros [decl|decl] σ'.
Qed.

(** On a theory of the supported kind [validateModel] builds the model
    at a fresh reference and validates the content it has built. *)
Lemma validateModel_discrete theory (judgments : list (ModelJudgment ObType MorType)) σ :
  kind theory = "Discrete" →
  let built := foldl add_judgment (DblModel_new theory) judgments in
  validateModel theory judgments σ
  = (Some {| model := length σ; result := validate built |}, σ ++ [built]).
Proof.
  intros Hkind. unfold validateModel.
  rewrite bool_decide_eq_false_2 by (intros Hne; by apply Hne).
  unfold Store.bind. rewrite catlogModel_fold.
  unfold Store.read, Store.ret. by rewrite lookup_fresh.
Qed.

(** C2. On a theory whose kind is not ["Discrete"], [validateModel]
    returns [undefined] for every list of judgments, empty or not, and
    builds no model. *)
Theorem validateModel_unsupported_kind
    theory (judgments : list (ModelJudgment ObType MorType)) σ :
  kind theory ≠ "Discrete" →
  validateModel theory judgments σ = (None, σ).
Proof.
  intros Hkind. unfold validateModel.
  rewrite bool_decide_eq_true_2 by exact Hkind.
  reflexivity.
Qed.

(** C7. Calling [validateModel] twice on the same theory and the same
    judgments gives results that are structurally identical: both are
    [undefined], or both hold a model with the same content and the same
    validation result; the second call leaves the model of the first
    as it was. *)
Theorem validateModel_repeatable
    theory (judgments : list (ModelJudgment ObType MorType)) σ :
  let first := validateModel theory judgments σ in
  let second := validateModel theory judgments first.2 in
  observe second.2 first.1 = observe second.2 second.1
  ∧ observe second.2 first.1 = observe first.2 first.1.
Proof.
  destruct (decide (kind theory = "Discrete")) as [Hkind|Hkind]; simpl.
  - rewrite !validateModel_discrete by done. simpl.
    rewrite !lookup_fresh.
    rewrite lookup_app_l by (rewrite length_app; simpl; lia).
    by rewrite lookup_fresh.
  - unfold validateModel.
    by rewrite !bool_decide_eq_true_2.
Qed.
End Generic.

(** *** With the model object of the spec *)

Section Spec.
Import Spec.
Variable null_is_error : bool.
Implicit Types (js : list (ModelJudgment string string)).

Lemma fold_add_judgment js (m : Content) :
  foldl (add_judgment (W := wasm null_is_error)) m js
  = {| theory := theory m;
       obs := obs m ++ declared_obs js;
       morphisms := morphisms m ++ declared_mors js |}.
Proof.
  revert m. induction js as [|[d|f] js IH]; intros m; simpl.
  - rewrite !app_nil_r. by destruct m.
  - rewrite IH. simpl. by rewrite <- app_assoc.
  - rewrite IH. simpl. by rewrite <- app_assoc.
Qed.

Lemma resolves_declared (declared : list Uuid) (o : Ob) :
  content o ∈ declared → resolves null_is_error declared (Some o) = true.
Proof. intros Hin. simpl. by apply bool_decide_eq_true_2. Qed.

(** In a well scoped sequence no morphism has an error against the
    objects of the whole sequence. *)
Lemma well_scoped_check seen js :
  well_scoped seen js = true →
  Forall (λ f, check null_is_error
                 (seen ++ map ob_id (declared_obs js)) f = [])
         (declared_mors js).
Proof.
  revert seen. induction js as [|[d|f] js IH]; intros seen Hws; simpl.
  - constructor.
  - specialize (IH _ Hws). by rewrite <- app_assoc in IH.
  - simpl in Hws.
    destruct (dom f) as [d|] eqn:Hdom; [|done].
    destruct (cod f) as [c|] eqn:Hcod; [|done].
    apply andb_true_iff in Hws as [Hws Hrest].
    apply andb_true_iff in Hws as [Hd Hc].
    apply bool_decide_eq_true_1 in Hd, Hc.
    constructor; [|by apply IH].
    unfold check. rewrite Hdom, Hcod.
    rewrite !resolves_declared; [done | | ];
      apply elem_of_app; by left.
Qed.

Lemma flat_map_nil {A B} (f : A → list B) (l : list A) :
  Forall (λ x, f x = []) l → flat_map f l = [].
Proof.
  induction 1 as [|x l Hx _ IH]; simpl; [done|]. by rewrite Hx, IH.
Qed.

(** A morphism whose [cod] names no object of the model is reported, by
    its id. *)
Lemma validate_dangling_cod (m : Content) f c :
  f ∈ morphisms m →
  cod f = Some c →
  content c ∉ map ob_id (obs m) →
  ∃ errors, validate null_is_error m = Err errors
            ∧ {| judgment := mor_id f; error_kind := dangling_cod |} ∈ errors.
Proof.
  intros Hf Hcod Hmissing.
  set (bad := {| judgment := mor_id f; error_kind := dangling_cod |}).
  assert (Hbad : bad ∈ flat_map (check null_is_error (map ob_id (obs m)))
                          (morphisms m)).
  { apply list_elem_of_In, in_flat_map. exists f.
    split; [by apply list_elem_of_In|].
    apply list_elem_of_In. unfold check. rewrite Hcod. simpl.
    rewrite bool_decide_eq_false_2 by done.
    apply elem_of_app. right. apply elem_of_cons. by left. }
  unfold validate.
  destruct (flat_map _ _) as [|e errors]; [by apply elem_of_nil in Hbad|].
  by eexists.
Qed.

(** On the frontend a morphism whose [cod] names no declared object stays
    in the model that [validateModel] builds, and the result is an [Err]
    that holds an error with the id of the morphism. *)
Lemma validateModel_reports_dangling (th : Spec.Theory) js σ f c :
  theory_kind th = "Discrete" →
  morphism f ∈ js →
  cod f = Some c →
  content c ∉ map ob_id (declared_obs js) →
  ∃ vm errors,
    (validateModel (W := wasm null_is_error) th js σ).1 = Some vm
    ∧ result vm = Err errors
    ∧ {| judgment := mor_id f; error_kind := dangling_cod |} ∈ errors
    ∧ ∃ built, (validateModel (W := wasm null_is_error) th js σ).2 !! model vm
               = Some built
               ∧ f ∈ morphisms built.
Proof.
  intros Hkind Hf Hcod Hmissing.
  rewrite (validateModel_discrete (W := wasm null_is_error)) by done.
  rewrite fold_add_judgment. simpl.
  assert (Hin : f ∈ declared_mors js).
  { apply list_elem_of_In, in_flat_map. exists (morphism f).
    split; [by apply list_elem_of_In | by left]. }
  destruct (validate_dangling_cod
              {| theory := th; obs := declared_obs js;
                 morphisms := declared_mors js |} f c Hin Hcod Hmissing)
    as (errors & Hval & Hbad).
  eexists _, errors. split; [done|]. simpl. split; [exact Hval|].
  split; [done|]. eexists. split; [apply lookup_fresh | done].
Qed.

(** C3. When every morphism of the sequence has its [dom] and [cod] set
    to objects declared earlier in the sequence, [validateModel] on a
    theory of kind ["Discrete"] returns a result tagged [Ok], with a
    model that holds exactly the declared objects and the declared
    morphisms, each in the order of the sequence. *)
Theorem validateModel_well_scoped (th : Spec.Theory) js σ :
  theory_kind th = "Discrete" →
  well_scoped [] js = true →
  validateModel (W := wasm null_is_error) th js σ
  = (Some {| model := length σ; result := Ok tt |},
     σ ++ [{| theory := th;
              obs := declared_obs js;
              morphisms := declared_mors js |}]).
Proof.
  intros Hkind Hws.
  rewrite (validateModel_discrete (W := wasm null_is_error)) by done.
  rewrite fold_add_judgment. simpl.
  pose proof (flat_map_nil _ _ (well_scoped_check [] js Hws)) as Hnil.
  simpl in Hnil. unfold validate. simpl. by rewrite Hnil.
Qed.
End Spec.

(** The hypothesis of C2 holds of a theory of kind ["DiscreteTab"] and of
    the judgments of scenario A. *)
Lemma validateModel_unsupported_kind_witness :
  Spec.theory_kind Spec.tabulator ≠ "Discrete"
  ∧ validateModel (W := Spec.wasm true) Spec.tabulator Spec.scenario_A []
    = (None, []).
Proof.
  split; [done|].
  apply (validateModel_unsupported_kind (W := Spec.wasm true)). done.
Defined.

(** Scenario A of the spec meets the hypotheses of C3. *)
Lemma validateModel_well_scoped_witness :
  Spec.theory_kind Spec.discrete = "Discrete"
  ∧ Spec.well_scoped [] Spec.scenario_A = true
  ∧ validateModel (W := Spec.wasm true) Spec.discrete Spec.scenario_A []
    = (Some {| model := 0; result := Ok tt |},
       [{| Spec.theory := Spec.discrete;
           Spec.obs := Spec.declared_obs Spec.scenario_A;
           Spec.morphisms := Spec.declared_mors Spec.scenario_A |}]).
Proof.
  split; [done|]. split; [by vm_compute|].
  apply (validateModel_well_scoped true Spec.discrete Spec.scenario_A []).
  - done.
  - by vm_compute.
Defined.

(** Scenario B of the spec: the morphism is kept in the model and the
    result is an [Err] that names it. *)
Example validateModel_scenario_B (null_is_error : bool) :
  validateModel (W := Spec.wasm null_is_error) Spec.discrete Spec.scenario_B []
  = (Some (@Build_ValidatedModel (Spec.wasm null_is_error) 0
             (Err [{| Spec.judgment := "2";
                      Spec.error_kind := Spec.dangling_cod |}])),
     [{| Spec.theory := Spec.discrete;
         Spec.obs := Spec.declared_obs Spec.scenario_B;
         Spec.morphisms := Spec.declared_mors Spec.scenario_B |}]).
Proof. destruct null_is_error; by vm_compute. Qed.

End ModelFacts.

(** ** Routes *)

Module RoutesFacts.

Import Routes.

Section Router.
Variable uuid_validate : string → bool.
Variable toLowerCase : string → string.

Lemma segments_model : segments "/model/:ref" = ["model"; ":ref"].
Proof. reflexivity. Qed.

Lemma segments_analysis : segments "/analysis/:ref" = ["analysis"; ":ref"].
Proof. reflexivity. Qed.

(** A route made of a fixed segment and the parameter [ref] under
    [refIsUUIDFilter] matches exactly the locations of two segments
    whose first is the fixed one, up to case, and whose second is a
    valid UUID. *)
Lemma createMatcher_ref (r : RouteDefinition) (seg : string) loc params :
  segments (path r) = [seg; ":ref"] →
  (∀ key, seg ≠ String ":" key) →
  matchFilters r = refIsUUIDFilter uuid_validate →
  children r = [] →
  createMatcher toLowerCase r loc = Some params ↔
  ∃ first s, loc = [first; s]
             ∧ toLowerCase first = toLowerCase seg
             ∧ uuid_validate s = true
             ∧ params = [("ref", s)].
Proof.
  intros Hsegs Hfixed Hfilters Hchildren.
  unfold createMatcher. rewrite Hsegs, Hfilters, Hchildren.
  assert (Hstep : ∀ locs ps first s,
             match_segments toLowerCase (refIsUUIDFilter uuid_validate)
               [seg; ":ref"] (first :: s :: locs) ps
             = if bool_decide (toLowerCase first = toLowerCase seg)
               then if uuid_validate s then Some (ps ++ [("ref", s)])
                    else None
               else None).
  { intros locs ps first s. simpl.
    destruct seg as [|c seg']; [done|].
    destruct (decide (c = ":"%char)) as [->|Hc];
      [by destruct (Hfixed seg')|].
    destruct c as [[] [] [] [] [] [] [] []]; try done. }
  destruct loc as [|first [|s [|x loc]]]; simpl length;
    cbn [Nat.ltb Nat.leb andb negb bool_decide decide_rel].
  - split; [done | by intros (? & ? & ? & _)].
  - split; [done | by intros (? & ? & ? & _)].
  - change (negb (bool_decide ([] = []))) with false. cbn [andb negb].
    rewrite Hstep.
    case_bool_decide as Hfirst; destruct (uuid_validate s) eqn:Hs;
      (split; [intros [= <-] || done
              | intros (? & ? & [= <- <-] & ? & ? & ->);
                try done; congruence ]).
    by eexists _, _.
  - change (negb (bool_decide ([] = []))) with false.
    split; [done | by intros (? & ? & ? & _)].
Qed.

(** C9. A route that loads a document, [/model/:ref] or
    [/analysis/:ref], matches a location only when the location has two
    segments and the second, the parameter [ref], is a valid UUID; a
    [ref] that is not one matches no such route. *)
Theorem document_route_only_uuid (r : RouteDefinition) loc params :
  r ∈ routes uuid_validate →
  document_route r = true →
  createMatcher toLowerCase r loc = Some params →
  ∃ first s, loc = [first; s]
             ∧ params = [("ref", s)]
             ∧ uuid_validate s = true.
Proof.
  intros Hr Hdoc Hmatch. unfold routes in Hr.
  rewrite !elem_of_cons, elem_of_nil in Hr.
  destruct Hr as [->|[->|[->|[->|[]]]]]; try discriminate Hdoc.
  - apply (createMatcher_ref _ "model") in Hmatch; try done.
    destruct Hmatch as (first & s & -> & _ & Hs & ->). by eexists _, _.
  - apply (createMatcher_ref _ "analysis") in Hmatch; try done.
    destruct Hmatch as (first & s & -> & _ & Hs & ->). by eexists _, _.
Qed.

(** The routes do match a valid UUID. *)
Lemma model_route_matches_uuid s :
  uuid_validate s = true →
  ∃ r, r ∈ routes uuid_validate
       ∧ component r = model_document_editor
       ∧ createMatcher toLowerCase r ["model"; s] = Some [("ref", s)].
Proof.
  intros Hs. eexists. split; [|split].
  - unfold routes. apply elem_of_cons. right. apply elem_of_cons. by left.
  - done.
  - apply (createMatcher_ref _ "model"); try done. by eexists _, _.
Qed.
End Router.

(** The route of the models matches a location whose [ref] has the shape
    of a UUID, and the theorem finds the shape back. *)
Lemma document_route_only_uuid_witness :
  let uuid := "0192f0a1-7c3e-7b2d-9f4a-1c2d3e4f5a6b" in
  Example.model_route ∈ routes Example.uuid_shape
  ∧ document_route Example.model_route = true
  ∧ createMatcher Letters.lowercase Example.model_route ["model"; uuid]
    = Some [("ref", uuid)]
  ∧ ∃ first s, ["model"; uuid] = [first; s]
               ∧ [("ref", uuid)] = [("ref", s)]
               ∧ Example.uuid_shape s = true.
Proof.
  intros uuid.
  assert (Hin : Example.model_route ∈ routes Example.uuid_shape).
  { unfold routes. apply elem_of_cons. right. apply elem_of_cons. by left. }
  assert (Hmatch : createMatcher Letters.lowercase Example.model_route
                     ["model"; uuid] = Some [("ref", uuid)])
    by by vm_compute.
  split; [exact Hin|]. split; [done|]. split; [exact Hmatch|].
  exact (document_route_only_uuid Example.uuid_shape Letters.lowercase
           Example.model_route ["model"; uuid] [("ref", uuid)]
           Hin eq_refl Hmatch).
Defined.

End RoutesFacts.

(** ** Documents *)

Module DocumentFacts.

Import Document.

(** C8. For every reference [r] to a model, [newAnalysisDocument r] has
    type ["analysis"], an empty name, a notebook with no cell and a
    [modelRef] equal to [{tag: "extern-ref", refId: r, taxon: "model"}]. *)
Theorem newAnalysisDocument_shape (ModelAnalysis : Type) (r : string) :
  let d := newAnalysisDocument (ModelAnalysis := ModelAnalysis) r in
  type d = "analysis"
  ∧ name d = ""
  ∧ cells (notebook d) = []
  ∧ modelRef d = {| tag := "extern-ref"; refId := r; taxon := "model" |}.
Proof. by repeat split. Qed.

(** Two analyses differ only by the model they refer to. *)
Lemma newAnalysisDocument_inj (ModelAnalysis : Type) (r r' : string) :
  newAnalysisDocument (ModelAnalysis := ModelAnalysis) r
  = newAnalysisDocument r' → r = r'.
Proof. by intros [= ->]. Qed.

End DocumentFacts.

(** ** Computations that depend on a validation result *)

Module AnalysisFacts.

Import Analysis.

Section Simulation.
Context {ValidatedModel : Type} `{D : Diagrams}.

Lemma validatedModel_validated (res : ValidationResult ValidatedModel) :
  tag res = "validated" → validatedModel res = Some (value res).
Proof. intros Htag. unfold validatedModel. by rewrite bool_decide_eq_true_2. Qed.

(** A diagram whose validation succeeded does give simulation data. *)
Lemma makeSimulationData_ok (liveDiagram : LiveDiagramDocument)
    (content : DecapodesContent) vd :
  validatedDiagram liveDiagram = Some vd →
  result vd = Ok tt →
  ∃ data, makeSimulationData liveDiagram content = Some data
          ∧ sim_model data = formalJudgments liveDiagram
          ∧ sim_scalars data = scalars content.
Proof.
  intros Hvd Hres. unfold makeSimulationData. rewrite Hvd. simpl.
  rewrite Hres. simpl. by eexists.
Qed.

Lemma validatedModel_other (res : ValidationResult ValidatedModel) :
  tag res ≠ "validated" → validatedModel res = None.
Proof. intros Htag. unfold validatedModel. by rewrite bool_decide_eq_false_2. Qed.

Lemma makeSimulationData_not_ok (liveDiagram : LiveDiagramDocument)
    (content : DecapodesContent) :
  optional_result_tag (validatedDiagram liveDiagram) ≠ Some "Ok" →
  makeSimulationData liveDiagram content = None.
Proof.
  intros Htag. unfold makeSimulationData. by rewrite bool_decide_eq_true_2.
Qed.

(** An [Err] from the validation of the diagram stops the simulation. *)
Lemma makeSimulationData_err (liveDiagram : LiveDiagramDocument)
    (content : DecapodesContent) vd errors :
  validatedDiagram liveDiagram = Some vd →
  result vd = Err errors →
  makeSimulationData liveDiagram content = None.
Proof.
  intros Hvd Hres. apply makeSimulationData_not_ok.
  rewrite Hvd. simpl. by rewrite Hres.
Qed.

(** C5. Whenever the validation result of the model is not
    ["validated"] the analysis cell gets [null] for its
    [validatedModel], and whenever the validation result of the diagram
    is not [Ok], an [Err] or no result at all, [makeSimulationData]
    returns [undefined]. *)
Theorem invalid_short_circuits
    (res : ValidationResult ValidatedModel)
    (liveDiagram : LiveDiagramDocument) (content : DecapodesContent) :
  (tag res ≠ "validated" → validatedModel res = None)
  ∧ (optional_result_tag (validatedDiagram liveDiagram) ≠ Some "Ok" →
     makeSimulationData liveDiagram content = None).
Proof.
  split; [apply validatedModel_other | apply makeSimulationData_not_ok].
Qed.
End Simulation.

(** A model whose validation errored and a diagram whose validation
    returned [Err]. *)
Lemma invalid_short_circuits_witness :
  (tag Example.errored ≠ "validated"
   ∧ validatedModel Example.errored = None)
  ∧ (optional_result_tag (validatedDiagram Example.invalid_diagram)
     ≠ Some "Ok"
     ∧ makeSimulationData Example.invalid_diagram Example.content = None).
Proof.
  destruct (invalid_short_circuits Example.errored Example.invalid_diagram
              Example.content) as [Hcell Hsim].
  split; (split; [done|]).
  - apply Hcell. done.
  - apply Hsim. done.
Defined.

End AnalysisFacts.

(** ** Loading the analysis page *)

Module AnalysisPageFacts.

Import AnalysisPage.

Section Page.
Context `{A : Api}.


Lemma AnalysisPage_not_found (ref : string) e :
  retrieveDoc ref = Rejected e → AnalysisPage ref = Rejected e.
Proof. intros Hdoc. unfold AnalysisPage. by rewrite Hdoc. Qed.

(** The document that [modelRef] points at is handed to
    [enlivenModelDocument] as it was retrieved: nothing between the two
    calls looks at it, and the load ends as [enlivenModelDocument] does. *)
Lemma AnalysisPage_model_unchecked (ref : string) doc docHandle
    r extern modelDoc modelDocHandle :
  retrieveDoc ref = Resolved (doc, docHandle) →
  whenReady docHandle = Resolved tt →
  type doc = Some "analysis" →
  modelRef doc = Some r →
  __extern__ r = Some extern →
  retrieveDoc (Extern.refId extern) = Resolved (modelDoc, modelDocHandle) →
  AnalysisPage ref
  = (liveModel ← enlivenModelDocument (Extern.refId extern)
                   modelDoc modelDocHandle;
     Resolved {| refId := ref;
                 doc := doc;
                 docHandle := docHandle;
                 liveModel := liveModel |}).
Proof.
  intros Hdoc Hready Htype Href Hextern Hmodel.
  unfold AnalysisPage. rewrite Hdoc. simpl. rewrite Hready. simpl.
  unfold invariant. rewrite bool_decide_eq_true_2 by done. simpl.
  unfold modelRef_refId. rewrite Href, Hextern. simpl. by rewrite Hmodel.
Qed.

(** C4. When the reference of a loaded analysis resolves to a document
    whose type differs from the taxon of the reference, the page raises no
    error of its own: it calls [enlivenModelDocument] on that document, and
    the load ends as that call does, resolving with the live model it
    returns. *)
Theorem AnalysisPage_taxon_mismatch_unchecked (ref : string) doc docHandle
    r extern modelDoc modelDocHandle :
  retrieveDoc ref = Resolved (doc, docHandle) →
  whenReady docHandle = Resolved tt →
  type doc = Some "analysis" →
  modelRef doc = Some r →
  __extern__ r = Some extern →
  retrieveDoc (Extern.refId extern) = Resolved (modelDoc, modelDocHandle) →
  type modelDoc ≠ Some (Extern.taxon extern) →
  AnalysisPage ref
  = (liveModel ← enlivenModelDocument (Extern.refId extern)
                   modelDoc modelDocHandle;
     Resolved {| refId := ref;
                 doc := doc;
                 docHandle := docHandle;
                 liveModel := liveModel |}).
Proof.
  intros Hdoc Hready Htype Href Hextern Hmodel _.
  by apply (AnalysisPage_model_unchecked ref doc docHandle r extern).
Qed.
End Page.

(** On the store of the example the analysis ["a1"] refers, with taxon
    ["model"], to the document ["a2"], whose type is ["analysis"]: the
    load resolves, with a live model made from ["a2"]. *)
Lemma AnalysisPage_taxon_mismatch_unchecked_witness :
  let api := Example.api Example.server in
  let extern := {| Extern.refId := "a2"; Extern.taxon := "model" |} in
  let live_a2 := {| Example.live_refId := "a2";
                    Example.live_doc := Example.analysis "a1";
                    Example.live_handle := "a2" |} in
  retrieveDoc (Api := api) "a1" = Resolved (Example.analysis "a2", "a1")
  ∧ modelRef (Example.analysis "a2") = Some (Example.model_ref "a2")
  ∧ __extern__ (Example.model_ref "a2") = Some extern
  ∧ retrieveDoc (Api := api) "a2" = Resolved (Example.analysis "a1", "a2")
  ∧ type (Example.analysis "a1") ≠ Some (Extern.taxon extern)
  ∧ AnalysisPage (A := api) "a1"
    = Resolved (@Build_LiveAnalysisDocument api
                  "a1" (Example.analysis "a2") "a1" live_a2).
Proof.
  intros api extern live_a2.
  assert (Ha1 : retrieveDoc (Api := api) "a1"
                = Resolved (Example.analysis "a2", "a1")) by by vm_compute.
  assert (Ha2 : retrieveDoc (Api := api) (Extern.refId extern)
                = Resolved (Example.analysis "a1", "a2")) by by vm_compute.
  assert (Hmismatch : type (Example.analysis "a1")
                      ≠ Some (Extern.taxon extern)) by done.
  split; [exact Ha1|]. split; [done|]. split; [done|].
  split; [exact Ha2|]. split; [exact Hmismatch|].
  exact (AnalysisPage_taxon_mismatch_unchecked (A := api) "a1"
           (Example.analysis "a2") "a1" (Example.model_ref "a2") extern
           (Example.analysis "a1") "a2"
           Ha1 eq_refl eq_refl eq_refl eq_refl Ha2 Hmismatch).
Defined.

End AnalysisPageFacts.

(** ** The Decapodes service *)

Module DecapodesFacts.

Import Decapodes.

Lemma throws_bind {A B} (r : Result A) (k : A → Result B) :
  throws r → throws (r ≫= k).
Proof. intros [e ->]. by exists e. Qed.

Lemma bind_Return {A B} (r : Result A) (k : A → Result B) b :
  r ≫= k = Return b → ∃ a, r = Return a ∧ k a = Return b.
Proof. destruct r as [e|a]; [done|]. intros Hk. by exists a. Qed.

(** A loop throws as soon as its body throws on one element, whatever
    the state it is reached in. *)
Lemma foreach_throws {S A} (body : S → A → Result S) (xs : list A) (x : A) s :
  x ∈ xs → (∀ s', throws (body s' x)) → throws (foreach body s xs).
Proof.
  intros Hin Hbody. revert s.
  induction xs as [|y xs IH]; intros s; [by apply elem_of_nil in Hin|].
  apply elem_of_cons in Hin as [<-|Hin]; simpl.
  - by apply throws_bind.
  - destruct (body s y) as [e|s']; [by exists e|]. by apply IH.
Qed.

Lemma foreach_app {S A} (body : S → A → Result S) (xs ys : list A) s :
  foreach body s (xs ++ ys) = foreach body s xs ≫= λ s', foreach body s' ys.
Proof.
  revert s. induction xs as [|x xs IH]; intros s; simpl; [done|].
  destruct (body s x) as [e|s']; simpl; [done|]. apply IH.
Qed.

(** *** Cells that are neither objects nor morphisms *)









Lemma to_int_nonnil z : Z.to_int z ≠ Pos Nil ∧ Z.to_int z ≠ Neg Nil.
Proof.
  destruct z as [|p|p]; simpl; split; try done;
    intros [= H]; by apply (DecimalPos.Unsigned.to_uint_nonnil p).
Qed.

Lemma string_of_Int_inj n m : string_of_Int n = string_of_Int m → n = m.
Proof.
  unfold string_of_Int. intros Heq.
  apply DecimalZ.to_int_inj.
  destruct (to_int_nonnil n) as [Hn1 Hn2], (to_int_nonnil m) as [Hm1 Hm2].
  pose proof (NilZero.isi _ Hn1 Hn2) as Hn.
  pose proof (NilZero.isi _ Hm1 Hm2) as Hm.
  rewrite Heq in Hn. congruence.
Qed.

Lemma anonymous_name_inj n m : anonymous_name n = anonymous_name m → n = m.
Proof.
  unfold anonymous_name. intros Heq.
  apply string_of_Int_inj. by simplify_eq/=.
Qed.



(** *** The names of the variables *)

Lemma wrap64_small z : (- 2 ^ 63 ≤ z < 2 ^ 63)%Z → wrap64 z = z.
Proof.
  intros Hz. unfold wrap64.
  rewrite Z.mod_small by lia. lia.
Qed.

Lemma count_anonymous_app xs ys :
  count_anonymous (xs ++ ys) = (count_anonymous xs + count_anonymous ys)%nat.
Proof. unfold count_anonymous. by rewrite List.filter_app, length_app. Qed.

Lemma count_anonymous_le xs : (count_anonymous xs ≤ length xs)%nat.
Proof. apply List.filter_length_le. Qed.

Lemma objects_app xs ys : objects (xs ++ ys) = objects xs ++ objects ys.
Proof. apply List.filter_app. Qed.

Lemma objects_length_le xs : (length (objects xs) ≤ length xs)%nat.
Proof. apply List.filter_length_le. Qed.

Lemma names_from_app n xs ys :
  names_from n (xs ++ ys)
  = names_from n xs ++ names_from (n + Z.of_nat (count_anonymous xs)) ys.
Proof.
  revert n. induction xs as [|c xs IH]; intros n; simpl.
  - f_equal. unfold count_anonymous. simpl. lia.
  - unfold count_anonymous at 1. simpl.
    destruct (anonymous c); simpl; rewrite IH; [|done].
    fold (count_anonymous xs).
    by replace (n + Z.of_nat (S (count_anonymous xs)))%Z
      with (n + 1 + Z.of_nat (count_anonymous xs))%Z by lia.
Qed.

Lemma length_names_from n objs : length (names_from n objs) = length objs.
Proof.
  revert n. induction objs as [|c objs IH]; intros n; simpl; [done|].
  destruct (anonymous c); simpl; by rewrite IH.
Qed.

Lemma anonymous_upto_cons c objs i :
  anonymous_upto (S i) (c :: objs)
  = ((if anonymous c then 1 else 0) + anonymous_upto i objs)%nat.
Proof. unfold anonymous_upto. simpl. by destruct (anonymous c). Qed.

(** The name at a position: the name of a named object, the number of
    anonymous objects up to it for an anonymous one. *)
Lemma names_from_lookup n objs i c :
  objs !! i = Some c →
  names_from n objs !! i
  = Some (if anonymous c
          then anonymous_name (n + Z.of_nat (anonymous_upto (S i) objs))
          else name c).
Proof.
  revert n i. induction objs as [|c' objs IH]; intros n i Hi; [done|].
  destruct i as [|i]; simpl in Hi.
  - injection Hi as ->. rewrite anonymous_upto_cons. simpl.
    unfold anonymous_upto. simpl.
    destruct (anonymous c); simpl; [|done]. do 2 f_equal; lia.
  - rewrite anonymous_upto_cons. simpl names_from.
    destruct (anonymous c') eqn:Hc'; simpl; rewrite (IH _ _ Hi);
      destruct (anonymous c); try done; do 2 f_equal; lia.
Qed.

Lemma anonymous_upto_pos objs j c :
  objs !! j = Some c → anonymous c = true →
  (1 ≤ anonymous_upto (S j) objs)%nat.
Proof.
  revert j. induction objs as [|c' objs IH]; intros j Hj Hc; [done|].
  rewrite anonymous_upto_cons. destruct j as [|j]; simpl in Hj.
  - injection Hj as ->. rewrite Hc. lia.
  - specialize (IH _ Hj Hc). lia.
Qed.

(** The count of anonymous objects grows strictly from one anonymous
    object to a later one. *)
Lemma anonymous_upto_lt objs i j c :
  (i < j)%nat → objs !! j = Some c → anonymous c = true →
  (anonymous_upto (S i) objs < anonymous_upto (S j) objs)%nat.
Proof.
  revert i j. induction objs as [|c' objs IH]; intros i j Hij Hj Hc; [done|].
  destruct j as [|j]; [lia|]. simpl in Hj.
  rewrite !anonymous_upto_cons. destruct i as [|i].
  - pose proof (anonymous_upto_pos _ _ _ Hj Hc).
    unfold anonymous_upto at 1. simpl. lia.
  - assert (i < j)%nat as Hij' by lia.
    specialize (IH _ _ Hij' Hj Hc). lia.
Qed.

Section Names.
Context {Scalar : Type}.
Variable theory : Theory.
Variable scalars : gmap string Scalar.
Implicit Types (b : Build (Scalar := Scalar)) (c : Cell).

(** An object adds one variable, named after the object or after the
    counter, which it then increments. *)
Lemma add_to_pode_Ob_names b b' c :
  (0 ≤ nc b < 2 ^ 63 - 1)%Z →
  add_to_pode_Ob b theory c = Return b' →
  var_names b' = var_names b ++ names_from (nc b) [c]
  ∧ nc b' = (nc b + if anonymous c then 1 else 0)%Z.
Proof.
  intros Hnc. unfold add_to_pode_Ob.
  intros (key & _ & Hrun)%bind_Return.
  apply bind_Return in Hrun as (elem & _ & Hrun).
  unfold var_names. simpl names_from. unfold anonymous.
  case_bool_decide as Hname;
    apply bind_Return in Hrun as (type & _ & [= <-]); simpl;
    rewrite map_app; simpl.
  - rewrite wrap64_small by lia. done.
  - split; [done | lia].
Qed.

(** A morphism adds no variable and leaves the counter. *)
Lemma add_to_pode_Hom_names b b' c :
  add_to_pode_Hom b theory c scalars = Return b' →
  var_names b' = var_names b ∧ nc b' = nc b.
Proof.
  unfold add_to_pode_Hom.
  intros (d & _ & Hrun)%bind_Return.
  apply bind_Return in Hrun as (d' & _ & Hrun).
  destruct (vars b !! d) as [vdom|]; [|by injection Hrun as <-].
  destruct (vars b !! d') as [vcod|]; [|by injection Hrun as <-].
  apply bind_Return in Hrun as (op & _ & Hrun).
  apply bind_Return in Hrun as (key & _ & [= <-]).
  unfold var_names. simpl. by case_bool_decide.
Qed.

Lemma IsObject_Return c o :
  IsObject c = Return o → o = if is_object c then Some c else None.
Proof.
  unfold IsObject, get_tag, is_object.
  destruct (tag c) as [t|]; [|done]. simpl. intros [= <-].
  repeat case_bool_decide; congruence.
Qed.

Lemma Decapode_cell_names b b' c :
  (0 ≤ nc b < 2 ^ 63 - 1)%Z →
  Decapode_cell theory scalars b c = Return b' →
  var_names b' = var_names b ++ names_from (nc b) (objects [c])
  ∧ nc b' = (nc b + Z.of_nat (count_anonymous (objects [c])))%Z.
Proof.
  intros Hnc. unfold Decapode_cell.
  intros (o & ->%IsObject_Return & Hrun)%bind_Return.
  unfold objects, count_anonymous. simpl.
  destruct (is_object c).
  - apply add_to_pode_Ob_names in Hrun as [-> ->]; [|done]. simpl.
    split; [done|]. destruct (anonymous c); simpl; lia.
  - apply bind_Return in Hrun as (m & _ & Hrun).
    destruct m as [content|]; [|done].
    apply add_to_pode_Hom_names in Hrun as [-> ->]. simpl.
    rewrite app_nil_r. split; [done|lia].
Qed.

Lemma foreach_names (diagram : list Cell) b b' :
  (0 ≤ nc b)%Z →
  (nc b + Z.of_nat (length diagram) < 2 ^ 63)%Z →
  foreach (Decapode_cell theory scalars) b diagram = Return b' →
  var_names b' = var_names b ++ names_from (nc b) (objects diagram)
  ∧ nc b' = (nc b + Z.of_nat (count_anonymous (objects diagram)))%Z.
Proof.
  revert b. induction diagram as [|c cs IH]; intros b Hpos Hlen.
  - intros [= <-]. simpl. rewrite app_nil_r. split; [done|].
    unfold count_anonymous. simpl. lia.
  - rewrite length_cons in Hlen.
    change (c :: cs) with ([c] ++ cs).
    rewrite objects_app, names_from_app, count_anonymous_app.
    simpl foreach. intros (b1 & Hcell & Hrest)%bind_Return.
    apply Decapode_cell_names in Hcell as [Hnames Hnc]; [|lia].
    pose proof (count_anonymous_le (objects [c])) as Hle.
    assert (length (objects [c]) ≤ 1)%nat as Hle'
      by apply (objects_length_le [c]).
    apply IH in Hrest as [-> ->]; [|lia..].
    rewrite Hnames, Hnc, <- app_assoc.
    split; [done|lia].
Qed.
(** On a buildable cell the body of the loop returns. *)
Lemma Decapode_cell_returns b c :
  buildable theory c → ∃ b', Decapode_cell theory scalars b c = Return b'.
Proof.
  unfold Decapode_cell, IsObject, IsMorphism, get_tag.
  intros [(Htag & key & elem & n & Hover & Hkey & Hn)
         |(Htag & [d Hd] & [d' Hd'] & key & Hover & [elem Hkey])];
    rewrite Htag; simpl.
  - unfold add_to_pode_Ob, getindex, nameof_elem.
    rewrite Hover. simpl. rewrite Hkey. simpl. rewrite Hn.
    case_bool_decide; simpl; by eexists.
  - unfold add_to_pode_Hom, nameof, getindex.
    rewrite Hd, Hd'. simpl.
    destruct (vars b !! d); [|by eexists].
    destruct (vars b !! d'); [|by eexists].
    rewrite Hover. simpl. rewrite Hkey. simpl. by eexists.
Qed.

Lemma foreach_returns (diagram : list Cell) b :
  Forall (buildable theory) diagram →
  ∃ b', foreach (Decapode_cell theory scalars) b diagram = Return b'.
Proof.
  intros Hall. revert b.
  induction Hall as [|c cs Hc _ IH]; intros b; simpl; [by eexists|].
  destruct (Decapode_cell_returns b c Hc) as [b1 ->]. simpl. apply IH.
Qed.

(** [Decapode] returns on every diagram whose cells are buildable. *)
Lemma Decapode_returns (diagram : list Cell) :
  Forall (buildable theory) diagram →
  ∃ r, Decapode diagram theory scalars = Return r.
Proof.
  intros Hall. unfold Decapode.
  destruct (foreach_returns diagram
              {| pode := empty_decapode; vars := ∅; nc := 0; anons := ∅ |}
              Hall) as [b' ->].
  simpl. by eexists.
Qed.

(** C10. When [Decapode] builds a decapode from a diagram, its variables
    are the objects of the diagram in order; an object with a name keeps
    that name, an object with an empty name is called [•n] where [n]
    counts the anonymous objects up to it, and two different anonymous
    objects never get the same name. *)
Theorem Decapode_variable_names (diagram : list Cell) d an vs :
  (Z.of_nat (length diagram) < 2 ^ 63)%Z →
  Decapode diagram theory scalars = Return (d, an, vs) →
  let objs := objects diagram in
  let names := map var_name (Var d) in
  length names = length objs
  ∧ (∀ i c, objs !! i = Some c → name c ≠ "" →
            names !! i = Some (name c))
  ∧ (∀ i c, objs !! i = Some c → name c = "" →
            names !! i
            = Some (anonymous_name (Z.of_nat (anonymous_upto (S i) objs))))
  ∧ (∀ i j ci cj, objs !! i = Some ci → objs !! j = Some cj →
                  name ci = "" → name cj = "" → i ≠ j →
                  names !! i ≠ names !! j).
Proof.
  intros Hlen. unfold Decapode.
  intros (b' & Hrun & [= <- <- <-])%bind_Return.
  apply foreach_names in Hrun as [Hnames _]; [|simpl; lia..].
  unfold var_names in Hnames. simpl in Hnames |- *.
  rewrite Hnames. clear Hnames.
  assert (Hat : ∀ i c, objects diagram !! i = Some c →
            names_from 0 (objects diagram) !! i
            = Some (if anonymous c
                    then anonymous_name
                           (Z.of_nat (anonymous_upto (S i) (objects diagram)))
                    else name c)).
  { intros i c Hi. by rewrite (names_from_lookup 0 _ _ _ Hi), Z.add_0_l. }
  split; [apply length_names_from|].
  split; [|split].
  - intros i c Hi Hname. rewrite (Hat _ _ Hi).
    unfold anonymous. by rewrite bool_decide_eq_false_2.
  - intros i c Hi Hname. rewrite (Hat _ _ Hi).
    unfold anonymous. by rewrite bool_decide_eq_true_2.
  - intros i j ci cj Hi Hj Hci Hcj Hij.
    assert (anonymous ci = true) as Hai by by apply bool_decide_eq_true_2.
    assert (anonymous cj = true) as Haj by by apply bool_decide_eq_true_2.
    rewrite (Hat _ _ Hi), (Hat _ _ Hj), Hai, Haj.
    intros Heq. apply (inj Some), anonymous_name_inj in Heq.
    destruct (Nat.lt_total i j) as [Hlt|[->|Hlt]]; [|done|].
    + pose proof (anonymous_upto_lt _ _ _ _ Hlt Hj Haj). lia.
    + pose proof (anonymous_upto_lt _ _ _ _ Hlt Hi Hai). lia.
Qed.
End Names.

(** The diagram of the example: two anonymous variables around [u]. *)
Lemma Decapode_variable_names_witness :
  let d := {| Var := [{| var_name := "•1"; var_type := "Form0" |};
                      {| var_name := "u"; var_type := "Form0" |};
                      {| var_name := "•2"; var_type := "Form0" |}];
              TVar := [3%nat];
              Op1 := [{| src := 2; tgt := 3; op1 := "∂ₜ" |}] |} in
  let vs : gmap string nat :=
    <["y" := 3%nat]> (<["u" := 2%nat]> (<["x" := 1%nat]> ∅)) in
  let objs := objects Example.diagram in
  let names := map var_name (Var d) in
  (Z.of_nat (length Example.diagram) < 2 ^ 63)%Z
  ∧ Decapode (Scalar := Z) Example.diagram Example.theory ∅
    = Return (d, ∅, vs)
  ∧ length names = length objs
  ∧ (∀ i c, objs !! i = Some c → name c ≠ "" →
            names !! i = Some (name c))
  ∧ (∀ i c, objs !! i = Some c → name c = "" →
            names !! i
            = Some (anonymous_name (Z.of_nat (anonymous_upto (S i) objs))))
  ∧ (∀ i j ci cj, objs !! i = Some ci → objs !! j = Some cj →
                  name ci = "" → name cj = "" → i ≠ j →
                  names !! i ≠ names !! j).
Proof.
  intros d vs objs names.
  assert (Hlen : (Z.of_nat (length Example.diagram) < 2 ^ 63)%Z)
    by by vm_compute.
  assert (Hrun : Decapode (Scalar := Z) Example.diagram Example.theory ∅
                 = Return (d, ∅, vs)) by by vm_compute.
  split; [exact Hlen|]. split; [exact Hrun|].
  exact (Decapode_variable_names Example.theory ∅ Example.diagram
           d ∅ vs Hlen Hrun).
Defined.

(** *** A morphism whose codomain is not declared *)

(** C1. On the diagram of the example the morphism ["f"] has the
    codomain ["missing"], which no object declares: [Decapode] returns
    without an error, and the decapode it returns has the variable of the
    example and no operation at all, the morphism is gone. *)
Theorem Decapode_drops_dangling_morphism :
  Theory_of Example.lowercase Example.model = Return Example.theory
  ∧ ∃ vs, Decapode (Scalar := Z) Example.dangling Example.theory ∅
          = Return ({| Var := [{| var_name := "u"; var_type := "Form0" |}];
                       TVar := [];
                       Op1 := [] |}, ∅, vs)
          ∧ vs !! "u" = Some 1%nat ∧ vs !! "missing" = None.
Proof.
  split; [by vm_compute|].
  eexists. split; [by vm_compute|]. split; by vm_compute.
Qed.

(** Whatever the diagram, a morphism whose [dom] or [cod] is not among the
    variables made so far changes nothing and raises nothing. *)
Lemma add_to_pode_Hom_dangling {Scalar} (b : Build (Scalar := Scalar))
    theory scalars c d d' :
  dom c = Some d → cod c = Some d' →
  vars b !! d = None ∨ vars b !! d' = None →
  add_to_pode_Hom b theory c scalars = Return b.
Proof.
  intros Hd Hd' Hmissing. unfold add_to_pode_Hom. rewrite Hd, Hd'. simpl.
  destruct Hmissing as [-> | ->]; [done|]. by destruct (vars b !! d).
Qed.

End DecapodesFacts.

(** ** Documents and judgments with a discriminator that is not known *)

Module DiscriminatorFacts.

Section Loads.
Context `{A : AnalysisPage.Api}.
Context {Scalar : Type}.
Variable lowercase : string → string.

End Loads.


End DiscriminatorFacts.

(** ** The Decapodes service: what a build holds *)

Module DecapodesBuildFacts.

Import Decapodes DecapodesFacts DecapodesTables.

(** A loop that returns has gone through the list from the left: what holds
    at the start and is carried by every turn holds of the whole list. *)
Lemma foreach_prefix_ind {S A} (body : S → A → Result S)
    (P : list A → S → Prop) (xs : list A) s0 s' :
  P [] s0 →
  (∀ pre x s t, P pre s → body s x = Return t → P (pre ++ [x]) t) →
  foreach body s0 xs = Return s' →
  P xs s'.
Proof.
  intros H0 Hstep.
  assert (Hgen : ∀ ys pre s, P pre s → foreach body s ys = Return s' →
                             P (pre ++ ys) s').
  { induction ys as [|y ys IH]; intros pre s Hpre; simpl.
    - intros [= <-]. by rewrite app_nil_r.
    - intros (t & Hbody & Hrest)%bind_Return.
      replace (pre ++ y :: ys) with ((pre ++ [y]) ++ ys)
        by by rewrite <- app_assoc.
      eapply IH; [|done]. by eapply Hstep. }
  intros Hrun. by apply (Hgen xs [] s0).
Qed.

Lemma IsMorphism_Return c o :
  IsMorphism c = Return o → o = if is_morphism c then Some c else None.
Proof.
  unfold IsMorphism, get_tag, is_morphism.
  destruct (tag c) as [t|]; [|done]. simpl. intros [= <-].
  repeat case_bool_decide; congruence.
Qed.

Lemma objects_snoc pre c :
  objects (pre ++ [c]) = objects pre ++ (if is_object c then [c] else []).
Proof. by rewrite objects_app. Qed.

(** The morphisms kept from a diagram read in two parts. *)
Lemma kept_app seen xs ys :
  kept seen (xs ++ ys) = kept seen xs ++ kept (seen ++ ids (objects xs)) ys.
Proof.
  revert seen. induction xs as [|c xs IH]; intros seen; simpl.
  - unfold ids, objects. simpl. by rewrite app_nil_r.
  - unfold objects. simpl. fold (objects xs).
    destruct (is_object c) eqn:Hob.
    + rewrite IH. unfold ids. simpl. by rewrite <- app_assoc.
    + destruct (dom c) as [d|], (cod c) as [d'|]; try apply IH.
      destruct (bool_decide (d ∈ seen) && bool_decide (d' ∈ seen));
        simpl; by rewrite IH.
Qed.

(** *** The theory *)

Section TheoryFacts.
Variable lowercase : string → string.

Lemma remove_spaces_app a b :
  remove_spaces (a ++ b) = (remove_spaces a ++ remove_spaces b)%string.
Proof.
  induction a as [|c a IH]; simpl; [done|].
  case_bool_decide; simpl; by rewrite IH.
Qed.

Lemma remove_spaces_idemp a : remove_spaces (remove_spaces a) = remove_spaces a.
Proof.
  induction a as [|c a IH]; simpl; [done|].
  case_bool_decide as Hc; simpl; [done|].
  by rewrite bool_decide_eq_false_2, IH.
Qed.

(** X1. Spaces in the name of a morphism do not count: the name with a
    space put anywhere in it is converted as the name without it, to the
    same symbol or to the same error. *)
Theorem to_decapode_theory_Hom_space (a b : string) :
  to_decapode_theory_Hom (a ++ " " ++ b) = to_decapode_theory_Hom (a ++ b).
Proof.
  unfold to_decapode_theory_Hom.
  by rewrite !remove_spaces_app.
Qed.

Lemma to_decapode_theory_Ob_range name :
  match to_decapode_theory_Ob lowercase name with
  | Return sym => sym ∈ Ob_symbols
  | Throw e => e = ImplError (lowercase name)
  end.
Proof.
  unfold to_decapode_theory_Ob, Ob_symbols.
  repeat (case_bool_decide; [set_solver|]). done.
Qed.

Lemma to_decapode_theory_Hom_range name :
  match to_decapode_theory_Hom name with
  | Return sym => sym ∈ Hom_symbols
  | Throw e => e = ImplError (remove_spaces name)
  end.
Proof.
  unfold to_decapode_theory_Hom, Hom_symbols.
  repeat (case_bool_decide; [set_solver|]). done.
Qed.

(** X2. The conversion of the name of an object returns one of the six
    symbols of the forms, and the conversion of the name of a morphism one
    of the thirteen symbols of the operators; when it throws, the error is
    an [ImplError] that holds the name as it was compared, in lower case or
    without its spaces. *)
Theorem to_decapode_theory_range (name : string) :
  match to_decapode_theory_Ob lowercase name with
  | Return sym => sym ∈ Ob_symbols
  | Throw e => e = ImplError (lowercase name)
  end
  ∧ match to_decapode_theory_Hom name with
    | Return sym => sym ∈ Hom_symbols
    | Throw e => e = ImplError (remove_spaces name)
    end.
Proof.
  split; [apply to_decapode_theory_Ob_range | apply to_decapode_theory_Hom_range].
Qed.

Lemma to_decapode_theory_Ob_symbol name sym :
  to_decapode_theory_Ob lowercase name = Return sym → sym ∈ Ob_symbols.
Proof.
  intros Hsym. pose proof (to_decapode_theory_Ob_range name) as Hob.
  by rewrite Hsym in Hob.
Qed.

Lemma to_decapode_theory_Hom_symbol name sym :
  to_decapode_theory_Hom name = Return sym → sym ∈ Hom_symbols.
Proof.
  intros Hsym. pose proof (to_decapode_theory_Hom_range name) as Hhom.
  by rewrite Hsym in Hhom.
Qed.

(** What one turn of the loop of [Theory] does when it returns. *)
Lemma Theory_cell_inv t c t' :
  Theory_cell lowercase t c = Return t' →
  ∃ e, described_by lowercase c e ∧ data t' = <[id c := e]> (data t).
Proof.
  unfold Theory_cell.
  intros (o & ->%IsObject_Return & Hrun)%bind_Return.
  destruct (is_object c) eqn:Hob.
  - unfold add_to_theory_Ob in Hrun.
    apply bind_Return in Hrun as (sym & Hsym & [= <-]).
    eexists. split; [|done]. left. split; [done|]. by exists sym.
  - apply bind_Return in Hrun as (m & ->%IsMorphism_Return & Hrun).
    destruct (is_morphism c) eqn:Hmor; [|done].
    unfold add_to_theory_Hom in Hrun.
    apply bind_Return in Hrun as (sym & Hsym & Hrun).
    apply bind_Return in Hrun as (d & Hd & Hrun).
    apply bind_Return in Hrun as (d' & Hd' & [= <-]).
    unfold get_content in Hd, Hd'.
    destruct (dom c) as [x|] eqn:Hdom; [|done].
    destruct (cod c) as [x'|] eqn:Hcod; [|done]. simplify_eq.
    eexists. split; [|done]. right. split; [done|]. split; [done|].
    by exists sym, d, d'.
Qed.

(** The theory that [Theory] has built from the cells [done]: its keys
    are their ids, and the element under a key is the one of the last cell
    with that id. *)
Lemma Theory_of_invariant (model : list Cell) t :
  Theory_of lowercase model = Return t →
  (∀ k, is_Some (data t !! k) ↔ k ∈ ids model)
  ∧ (∀ k e, data t !! k = Some e →
            ∃ earlier c later, model = earlier ++ c :: later
                              ∧ id c = k ∧ (k ∉ ids later)
                              ∧ described_by lowercase c e).
Proof.
  unfold Theory_of.
  apply (foreach_prefix_ind _
           (λ pre t,
              (∀ k, is_Some (data t !! k) ↔ k ∈ ids pre)
              ∧ (∀ k e, data t !! k = Some e →
                        ∃ earlier c later, pre = earlier ++ c :: later
                                          ∧ id c = k ∧ (k ∉ ids later)
                                          ∧ described_by lowercase c e))).
  - simpl. split.
    + intros k. rewrite lookup_empty. split; [by intros [? ?]|].
      by intros ?%elem_of_nil.
    + intros k e. by rewrite lookup_empty.
  - intros pre c s t' [Hkeys Hlast] (e & Hdesc & Hdata)%Theory_cell_inv.
    rewrite Hdata. split.
    + intros k. unfold ids. rewrite map_app, elem_of_app. simpl.
      rewrite list_elem_of_singleton.
      destruct (decide (id c = k)) as [<-|Hne].
      * rewrite lookup_insert_eq. split; [by right | by eexists].
      * rewrite lookup_insert_ne by done. rewrite Hkeys. unfold ids.
        split; [by left | by intros [?|?]].
    + intros k e'. destruct (decide (id c = k)) as [<-|Hne].
      * rewrite lookup_insert_eq. intros [= <-].
        exists pre, c, []. repeat split; try done. by intros ?%elem_of_nil.
      * rewrite lookup_insert_ne by done. intros Hk.
        destruct (Hlast _ _ Hk) as (earlier & c' & later & -> & Hid & Hnot & Hd).
        exists earlier, c', (later ++ [c]).
        split; [by rewrite <- app_assoc|]. split; [done|]. split; [|done].
        unfold ids. rewrite map_app, elem_of_app. simpl.
        rewrite list_elem_of_singleton. intros [?|?]; [by apply Hnot | done].
Qed.

(** X3. When [Theory(model)] returns, the keys of the theory are exactly
    the ids of the cells of the model. *)
Theorem Theory_keys (model : list Cell) t (k : string) :
  Theory_of lowercase model = Return t →
  is_Some (data t !! k) ↔ k ∈ ids model.
Proof. intros Ht. by apply Theory_of_invariant. Qed.

(** X4. When [Theory(model)] returns, the element under a key comes from
    the last cell of the model with that id: it holds the symbol of the
    name of the cell and, for a morphism, the ids of its [dom] and [cod],
    so every element has a name. *)
Theorem Theory_elements (model : list Cell) t (k : string) e :
  Theory_of lowercase model = Return t →
  data t !! k = Some e →
  is_Some (elem_name e)
  ∧ ∃ earlier c later, model = earlier ++ c :: later
                      ∧ id c = k ∧ (k ∉ ids later)
                      ∧ described_by lowercase c e.
Proof.
  intros Ht Hk.
  destruct (Theory_of_invariant model t Ht) as [_ Hlast].
  destruct (Hlast _ _ Hk) as (earlier & c & later & Hm & Hid & Hnot & Hdesc).
  split; [|by exists earlier, c, later].
  destruct Hdesc as [(_ & sym & _ & ->)|(_ & _ & sym & d & d' & _ & _ & _ & ->)];
    by eexists.
Qed.

(** A morphism whose [dom] or [cod] is [null] makes its turn of the loop
    throw, whatever the theory built so far. *)
Lemma Theory_cell_null t c :
  tag c = Some "morphism" → dom c = None ∨ cod c = None →
  throws (Theory_cell lowercase t c).
Proof.
  intros Htag Hnull. unfold Theory_cell, IsObject, IsMorphism, get_tag.
  rewrite Htag. simpl. unfold add_to_theory_Hom.
  destruct (to_decapode_theory_Hom (name c)) as [e|sym]; simpl; [by eexists|].
  destruct Hnull as [-> | Hcod]; simpl; [by eexists|].
  destruct (dom c); simpl; [|by eexists]. rewrite Hcod. simpl. by eexists.
Qed.

(** X5. [Theory(model)] throws as soon as the model holds a morphism whose
    [dom] or [cod] is [null], as a morphism has them until the editor fills
    them in. *)
Theorem Theory_null_end (model : list Cell) c :
  c ∈ model → tag c = Some "morphism" → dom c = None ∨ cod c = None →
  throws (Theory_of lowercase model).
Proof.
  intros Hin Htag Hnull. unfold Theory_of.
  apply (foreach_throws _ _ c); [done|].
  intros t. by apply Theory_cell_null.
Qed.

End TheoryFacts.

Section Build.
Context {Scalar : Type}.
Variable theory : Theory.
Variable scalars : gmap string Scalar.
Implicit Types (b : Build (Scalar := Scalar)) (c : Cell).

(** What one turn of the loop of [Decapode] does when it returns. *)
Lemma Decapode_cell_inv b c b' :
  Decapode_cell theory scalars b c = Return b' →
  (is_object c = true
   ∧ ∃ key elem ty nm,
       over c = Some key ∧ data theory !! key = Some elem
       ∧ elem_name elem = Some ty
       ∧ pode b' = {| Var := Var (pode b)
                             ++ [{| var_name := nm; var_type := ty |}];
                      TVar := TVar (pode b);
                      Op1 := Op1 (pode b) |}
       ∧ vars b' = <[id c := S (length (Var (pode b)))]> (vars b)
       ∧ anons b' = anons b)
  ∨ (is_object c = false ∧ is_morphism c = true
     ∧ ∃ d d', dom c = Some d ∧ cod c = Some d'
       ∧ (((vars b !! d = None ∨ vars b !! d' = None) ∧ b' = b)
          ∨ ∃ vd vc key elem,
              vars b !! d = Some vd ∧ vars b !! d' = Some vc
              ∧ over c = Some key ∧ data theory !! key = Some elem
              ∧ pode b' = {| Var := Var (pode b);
                             TVar := TVar (pode b)
                                     ++ (if bool_decide (op1_of theory c = "∂ₜ")
                                         then [vc] else []);
                             Op1 := Op1 (pode b)
                                    ++ [{| src := vd; tgt := vc;
                                           op1 := op1_of theory c |}] |}
              ∧ vars b' = vars b
              ∧ anons b' = match scalars !! key with
                           | Some scalar => <[op1_of theory c := scalar]> (anons b)
                           | None => anons b
                           end)).
Proof.
  unfold Decapode_cell.
  intros (o & ->%IsObject_Return & Hrun)%bind_Return.
  destruct (is_object c) eqn:Hob.
  - left. split; [done|]. unfold add_to_pode_Ob in Hrun.
    apply bind_Return in Hrun as (key & Hkey & Hrun).
    apply bind_Return in Hrun as (elem & Helem & Hrun).
    unfold get_content in Hkey. destruct (over c) as [k|]; [|done].
    unfold getindex in Helem.
    destruct (data theory !! key) as [e|] eqn:Hlook; [|done].
    unfold nameof_elem in Hrun.
    destruct (elem_name elem) as [ty|] eqn:Hty;
      [|by destruct (bool_decide (name c = ""))].
    simplify_eq.
    destruct (bool_decide (name c = "")); simpl in Hrun;
      injection Hrun as <-; eexists _, _, _, _;
      (split; [reflexivity|]); (split; [eassumption|]);
      (split; [eassumption|]); done.
  - right. split; [done|].
    apply bind_Return in Hrun as (m & ->%IsMorphism_Return & Hrun).
    destruct (is_morphism c) eqn:Hmor; [|done]. split; [done|].
    unfold add_to_pode_Hom in Hrun.
    apply bind_Return in Hrun as (d & Hd & Hrun).
    apply bind_Return in Hrun as (d' & Hd' & Hrun).
    unfold get_content in Hd, Hd'.
    destruct (dom c) as [x|]; [|done].
    destruct (cod c) as [x'|]; [|done]. simplify_eq.
    exists d, d'. split; [done|]. split; [done|].
    destruct (vars b !! d) as [vd|] eqn:Hvd;
      [|injection Hrun as <-; left; by split; [left|]].
    destruct (vars b !! d') as [vc|] eqn:Hvc;
      [|injection Hrun as <-; left; by split; [right|]].
    right. unfold nameof in Hrun.
    apply bind_Return in Hrun as (op & Hop & Hrun).
    apply bind_Return in Hop as (key & Hkey & Hop).
    apply bind_Return in Hop as (elem & Helem & Hop).
    apply bind_Return in Hrun as (key' & Hkey' & Hrun).
    unfold get_content in Hkey, Hkey'. unfold op1_of.
    destruct (over c) as [k|]; [|done].
    unfold getindex in Helem.
    destruct (data theory !! key) as [e|] eqn:Hlook; [|done].
    simplify_eq. rewrite Hlook. simpl.
    eexists _, _, _, _.
    split; [reflexivity|]. split; [reflexivity|].
    split; [reflexivity|]. split; [eassumption|].
    repeat split; try done. simpl.
    case_bool_decide; unfold add_TVar, add_Op1; simpl;
      by rewrite ?app_nil_r.
Qed.

Lemma build_invariant_initial : build_invariant theory scalars [] initial.
Proof.
  split; simpl; try done.
  - intros k. rewrite lookup_empty. split; [by intros [? ?]|].
    by intros ?%elem_of_nil.
Qed.

(** An object adds a row and an entry of the dictionary. *)
Lemma build_invariant_object pre b b' c key elem ty nm :
  build_invariant theory scalars pre b →
  is_object c = true →
  over c = Some key → data theory !! key = Some elem →
  elem_name elem = Some ty →
  pode b' = {| Var := Var (pode b) ++ [{| var_name := nm; var_type := ty |}];
               TVar := TVar (pode b);
               Op1 := Op1 (pode b) |} →
  vars b' = <[id c := S (length (Var (pode b)))]> (vars b) →
  anons b' = anons b →
  build_invariant theory scalars (pre ++ [c]) b'.
Proof.
  intros [Hlen Hkeys Hvars Hpos Htypes Hops Htvar Hkept Hanons]
         Hob Hover Helem Hty Hpode Hv Han.
  assert (Hobjs : objects (pre ++ [c]) = objects pre ++ [c])
    by by rewrite objects_snoc, Hob.
  split; rewrite ?Hpode, ?Hv, ?Han, ?Hobjs; simpl.
  - rewrite !length_app. simpl. lia.
  - intros k. unfold ids. rewrite map_app, elem_of_app. simpl.
    rewrite list_elem_of_singleton.
    destruct (decide (id c = k)) as [<-|Hne].
    + rewrite lookup_insert_eq. split; [by right | by eexists].
    + rewrite lookup_insert_ne by done. rewrite Hkeys. unfold ids.
      split; [by left | by intros [?|?]].
  - intros k v. destruct (decide (id c = k)) as [<-|Hne].
    + rewrite lookup_insert_eq. intros [= <-]. split; [lia|].
      exists c. split; [|done]. simpl. rewrite Hlen.
      rewrite lookup_app_r by lia. by rewrite Nat.sub_diag.
    + rewrite lookup_insert_ne by done. intros Hk.
      destruct (Hvars _ _ Hk) as (Hv1 & c' & Hc' & Hid). split; [done|].
      exists c'. split; [|done]. by apply lookup_app_l_Some.
  - unfold ids. rewrite map_app. simpl.
    intros (Hnd & Hfresh & _)%NoDup_app i c' Hi.
    apply lookup_app_Some in Hi as [Hi|[Hge Hi]].
    + assert (id c' ≠ id c) as Hne.
      { intros Heq. apply (Hfresh (id c')); [|rewrite Heq; by left].
        apply list_elem_of_In, in_map, list_elem_of_In.
        by eapply list_elem_of_lookup_2. }
      rewrite lookup_insert_ne by done. by apply Hpos.
    + destruct (i - length (objects pre))%nat as [|n] eqn:Hi'; [|done].
      injection Hi as <-. rewrite lookup_insert_eq. f_equal. lia.
  - intros i c' Hi.
    apply lookup_app_Some in Hi as [Hi|[Hge Hi]].
    + destruct (Htypes _ _ Hi) as (key' & elem' & ? & ? & Hrow).
      exists key', elem'. split; [done|]. split; [done|].
      rewrite lookup_app_l; [done|].
      rewrite Hlen. by eapply lookup_lt_Some.
    + destruct (i - length (objects pre))%nat as [|n] eqn:Hi'; [|done].
      injection Hi as <-. exists key, elem. split; [done|]. split; [done|].
      rewrite lookup_app_r by lia.
      replace (i - length (Var (pode b)))%nat with 0%nat by lia.
      by rewrite Hty.
  - eapply Forall_impl; [exact Hops|]. unfold in_range. simpl.
    intros r [? ?]. rewrite length_app. simpl. lia.
  - done.
  - rewrite Hkept. f_equal.
    change (pre ++ [c]) with (pre ++ [c]). rewrite kept_app. simpl.
    by rewrite Hob, app_nil_r.
  - done.
Qed.

Lemma kept_morphism pre c d d' :
  is_object c = false → dom c = Some d → cod c = Some d' →
  kept [] (pre ++ [c])
  = kept [] pre
    ++ (if bool_decide (d ∈ ids (objects pre))
           && bool_decide (d' ∈ ids (objects pre))
        then [c] else []).
Proof.
  intros Hob Hd Hd'. rewrite kept_app. simpl. rewrite Hob, Hd, Hd'.
  by destruct (_ && _).
Qed.

Lemma vars_in_range pre b k v :
  build_invariant theory scalars pre b →
  vars b !! k = Some v → in_range (pode b) v.
Proof.
  intros Hinv Hk. destruct (inv_vars _ _ _ _ Hinv _ _ Hk) as (Hv & c & Hc & _).
  apply lookup_lt_Some in Hc. unfold in_range.
  rewrite (inv_length _ _ _ _ Hinv). lia.
Qed.

(** A morphism with an end that is not in the dictionary changes
    nothing. *)
Lemma build_invariant_dropped pre b c d d' :
  build_invariant theory scalars pre b →
  is_object c = false → dom c = Some d → cod c = Some d' →
  vars b !! d = None ∨ vars b !! d' = None →
  build_invariant theory scalars (pre ++ [c]) b.
Proof.
  intros Hinv Hob Hd Hd' Hmissing.
  assert (Hobjs : objects (pre ++ [c]) = objects pre)
    by by rewrite objects_snoc, Hob, app_nil_r.
  assert (Hkept : kept [] (pre ++ [c]) = kept [] pre).
  { rewrite (kept_morphism _ _ _ _ Hob Hd Hd').
    assert (bool_decide (d ∈ ids (objects pre))
            && bool_decide (d' ∈ ids (objects pre)) = false) as ->;
      [|by rewrite app_nil_r].
    apply andb_false_iff.
    destruct Hmissing as [Hm|Hm]; [left|right];
      apply bool_decide_eq_false_2; intros Hin;
      apply (inv_keys _ _ _ _ Hinv) in Hin as [v Hv]; congruence. }
  destruct Hinv. split; rewrite ?Hobjs, ?Hkept; done.
Qed.

(** A morphism with both ends in the dictionary adds an operation
    between the parts the dictionary gives. *)
Lemma build_invariant_added pre b b' c d d' vd vc key elem :
  build_invariant theory scalars pre b →
  is_object c = false → dom c = Some d → cod c = Some d' →
  vars b !! d = Some vd → vars b !! d' = Some vc →
  over c = Some key → data theory !! key = Some elem →
  pode b' = {| Var := Var (pode b);
               TVar := TVar (pode b)
                       ++ (if bool_decide (op1_of theory c = "∂ₜ")
                           then [vc] else []);
               Op1 := Op1 (pode b)
                      ++ [{| src := vd; tgt := vc; op1 := op1_of theory c |}] |} →
  vars b' = vars b →
  anons b' = match scalars !! key with
             | Some scalar => <[op1_of theory c := scalar]> (anons b)
             | None => anons b
             end →
  build_invariant theory scalars (pre ++ [c]) b'.
Proof.
  intros Hinv Hob Hd Hd' Hvd Hvc Hover Helem Hpode Hv Han.
  assert (Hobjs : objects (pre ++ [c]) = objects pre)
    by by rewrite objects_snoc, Hob, app_nil_r.
  assert (Hkept : kept [] (pre ++ [c]) = kept [] pre ++ [c]).
  { rewrite (kept_morphism _ _ _ _ Hob Hd Hd').
    rewrite !bool_decide_eq_true_2; [done| |];
      apply (inv_keys _ _ _ _ Hinv); by eexists. }
  pose proof (vars_in_range _ _ _ _ Hinv Hvd) as Hrd.
  pose proof (vars_in_range _ _ _ _ Hinv Hvc) as Hrc.
  destruct Hinv as [Hlen Hkeys Hvars Hpos Htypes Hops Htvar Hkeptpre Hanons].
  split; rewrite ?Hpode, ?Hv, ?Han, ?Hobjs, ?Hkept; simpl; try done.
  - apply Forall_app. split; [done|]. by constructor.
  - rewrite List.filter_app, map_app, <- Htvar. simpl. unfold is_dt. simpl.
    by case_bool_decide.
  - by rewrite !map_app, Hkeptpre.
  - intros s v Hs. rewrite map_app. simpl.
    destruct (scalars !! key) as [scalar|] eqn:Hscalar.
    + destruct (decide (op1_of theory c = s)) as [<-|Hne].
      * rewrite lookup_insert_eq in Hs. injection Hs as <-.
        split; [|by eexists]. apply elem_of_app. right. by left.
      * rewrite lookup_insert_ne in Hs by done.
        destruct (Hanons _ _ Hs) as [Hin Hkey]. split; [|done].
        apply elem_of_app. by left.
    + destruct (Hanons _ _ Hs) as [Hin Hkey]. split; [|done].
      apply elem_of_app. by left.
Qed.

(** The invariant holds of whatever the loop of [Decapode] returns. *)
Lemma build_invariant_foreach (diagram : list Cell) b :
  foreach (Decapode_cell theory scalars) initial diagram = Return b →
  build_invariant theory scalars diagram b.
Proof.
  apply foreach_prefix_ind; [apply build_invariant_initial|].
  intros pre c s t Hinv Hcell.
  apply Decapode_cell_inv in Hcell
    as [(Hob & key & elem & ty & nm & ? & ? & ? & ? & ? & ?)
       |(Hob & Hmor & d & d' & Hd & Hd'
         & [[Hmissing ->]
           |(vd & vc & key & elem & ? & ? & ? & ? & ? & ? & ?)])].
  - by eapply build_invariant_object.
  - by eapply build_invariant_dropped.
  - by eapply build_invariant_added.
Qed.

Lemma Decapode_Return (diagram : list Cell) d an vs :
  Decapode diagram theory scalars = Return (d, an, vs) →
  ∃ b, foreach (Decapode_cell theory scalars) initial diagram = Return b
       ∧ pode b = d ∧ anons b = an ∧ vars b = vs.
Proof.
  unfold Decapode. intros (b & Hrun & [= <- <- <-])%bind_Return. by exists b.
Qed.

(** X6. In the decapode that [Decapode] returns every operation goes from
    a row of the table of variables to a row of that table, every
    derivative in time marks such a row, and every entry of the dictionary
    names such a row. *)
Theorem Decapode_parts_in_range (diagram : list Cell) d an vs :
  Decapode diagram theory scalars = Return (d, an, vs) →
  Forall (λ r, in_range d (src r) ∧ in_range d (tgt r)) (Op1 d)
  ∧ Forall (in_range d) (TVar d)
  ∧ (∀ k v, vs !! k = Some v → in_range d v).
Proof.
  intros (b & Hrun%build_invariant_foreach & <- & <- & <-)%Decapode_Return.
  split; [apply (inv_ops _ _ _ _ Hrun)|]. split.
  - rewrite (inv_tvar _ _ _ _ Hrun).
    pose proof (inv_ops _ _ _ _ Hrun) as Hops.
    induction Hops as [|r rs [_ Hr] _ IH]; simpl; [done|].
    destruct (is_dt r); simpl; [by constructor | done].
  - intros k v Hk. by eapply vars_in_range.
Qed.

(** X7. The dictionary that [Decapode] returns has the ids of the objects
    of the diagram for keys, and, when these ids are all different, it
    sends the id of the [i]-th object to the part [i], counted from 1. *)
Theorem Decapode_dictionary (diagram : list Cell) d an vs :
  Decapode diagram theory scalars = Return (d, an, vs) →
  (∀ k, is_Some (vs !! k) ↔ k ∈ ids (objects diagram))
  ∧ (NoDup (ids (objects diagram)) →
     ∀ i c, objects diagram !! i = Some c → vs !! id c = Some (S i)).
Proof.
  intros (b & Hrun%build_invariant_foreach & <- & <- & <-)%Decapode_Return.
  split; [apply (inv_keys _ _ _ _ Hrun) | apply (inv_position _ _ _ _ Hrun)].
Qed.

(** X8. The type of the [i]-th variable is the name of the element of the
    theory that the [i]-th object of the diagram is over. *)
Theorem Decapode_variable_types (diagram : list Cell) d an vs i c :
  Decapode diagram theory scalars = Return (d, an, vs) →
  objects diagram !! i = Some c →
  ∃ key elem, over c = Some key ∧ data theory !! key = Some elem
              ∧ var_type <$> Var d !! i = elem_name elem.
Proof.
  intros (b & Hrun%build_invariant_foreach & <- & <- & <-)%Decapode_Return.
  apply (inv_types _ _ _ _ Hrun).
Qed.

(** X9. The table of the derivatives in time lists, in order, the targets
    of the operations named [∂ₜ], and nothing else. *)
Theorem Decapode_time_derivatives (diagram : list Cell) d an vs :
  Decapode diagram theory scalars = Return (d, an, vs) →
  TVar d = map tgt (List.filter is_dt (Op1 d)).
Proof.
  intros (b & Hrun%build_invariant_foreach & <- & <- & <-)%Decapode_Return.
  apply (inv_tvar _ _ _ _ Hrun).
Qed.

(** X10. The operations of the decapode are, in order, those of the
    morphisms of the diagram whose [dom] and [cod] are ids of objects that
    come earlier in the diagram, each under the name of the element of the
    theory it is over; the other morphisms leave no operation. *)
Theorem Decapode_operations (diagram : list Cell) d an vs :
  Decapode diagram theory scalars = Return (d, an, vs) →
  map op1 (Op1 d) = map (op1_of theory) (kept [] diagram).
Proof.
  intros (b & Hrun%build_invariant_foreach & <- & <- & <-)%Decapode_Return.
  apply (inv_kept _ _ _ _ Hrun).
Qed.

(** X11. A scalar closure is registered only under the name of an
    operation of the decapode and only with a value of [scalars]; without
    scalars none is registered. *)
Theorem Decapode_scalar_closures (diagram : list Cell) d an vs :
  Decapode diagram theory scalars = Return (d, an, vs) →
  (∀ s v, an !! s = Some v →
          s ∈ map op1 (Op1 d) ∧ ∃ key, scalars !! key = Some v)
  ∧ (scalars = ∅ → an = ∅).
Proof.
  intros (b & Hrun%build_invariant_foreach & <- & <- & <-)%Decapode_Return.
  split; [apply (inv_anons _ _ _ _ Hrun)|].
  intros Hempty. apply map_eq. intros s. rewrite lookup_empty.
  destruct (anons b !! s) as [v|] eqn:Hs; [|done].
  destruct (inv_anons _ _ _ _ Hrun _ _ Hs) as [_ [key Hkey]].
  by rewrite Hempty, lookup_empty in Hkey.
Qed.

(** A morphism with an end that no earlier object declares is passed over
    by its turn of the loop. *)
Lemma Decapode_cell_dangling pre b c d d' :
  build_invariant theory scalars pre b →
  tag c = Some "morphism" → dom c = Some d → cod c = Some d' →
  d ∉ ids (objects pre) ∨ d' ∉ ids (objects pre) →
  Decapode_cell theory scalars b c = Return b.
Proof.
  intros Hinv Htag Hd Hd' Hmissing.
  unfold Decapode_cell, IsObject, IsMorphism, get_tag. rewrite Htag. simpl.
  apply (add_to_pode_Hom_dangling _ _ _ _ d d'); [done..|].
  destruct Hmissing as [Hm|Hm]; [left|right];
    apply eq_None_not_Some; intros His; apply Hm;
    by apply (inv_keys _ _ _ _ Hinv).
Qed.

(** X12. A morphism whose [dom] or [cod] is set to an id that no earlier
    object of the diagram has could as well not be there: [Decapode]
    returns, or throws, the same with the morphism and without it. *)
Theorem Decapode_dangling_morphism_ignored (pre post : list Cell) c d d' :
  tag c = Some "morphism" → dom c = Some d → cod c = Some d' →
  d ∉ ids (objects pre) ∨ d' ∉ ids (objects pre) →
  Decapode (pre ++ c :: post) theory scalars
  = Decapode (pre ++ post) theory scalars.
Proof.
  intros Htag Hd Hd' Hmissing. unfold Decapode. rewrite !foreach_app.
  fold (initial (Scalar := Scalar)).
  destruct (foreach (Decapode_cell theory scalars) initial pre)
    as [e|b] eqn:Hpre; [done|].
  simpl. apply build_invariant_foreach in Hpre.
  by rewrite (Decapode_cell_dangling pre b c d d').
Qed.

(** An object over nothing, or over a key that the theory does not have,
    makes its turn of the loop throw. *)
Lemma Decapode_cell_object_throws b c :
  tag c = Some "object" →
  (∀ key, over c = Some key → data theory !! key = None) →
  throws (Decapode_cell theory scalars b c).
Proof.
  intros Htag Hover. unfold Decapode_cell, IsObject, get_tag.
  rewrite Htag. simpl. unfold add_to_pode_Ob, getindex.
  destruct (over c) as [key|]; simpl; [|by eexists].
  rewrite (Hover key) by done. by eexists.
Qed.

Lemma Decapode_cell_null_throws b c :
  tag c = Some "morphism" → dom c = None ∨ cod c = None →
  throws (Decapode_cell theory scalars b c).
Proof.
  intros Htag Hnull. unfold Decapode_cell, IsObject, IsMorphism, get_tag.
  rewrite Htag. simpl. unfold add_to_pode_Hom.
  destruct Hnull as [-> | Hcod]; simpl; [by eexists|].
  destruct (dom c); simpl; [|by eexists]. rewrite Hcod. by eexists.
Qed.

(** X13. [Decapode] throws when an object of the diagram is over nothing
    or over a key that the theory does not have, and when a morphism of the
    diagram has [null] for its [dom] or its [cod]. *)
Theorem Decapode_throws (diagram : list Cell) c :
  c ∈ diagram →
  (tag c = Some "object"
   ∧ ∀ key, over c = Some key → data theory !! key = None)
  ∨ (tag c = Some "morphism" ∧ (dom c = None ∨ cod c = None)) →
  throws (Decapode diagram theory scalars).
Proof.
  intros Hin Hbad. unfold Decapode. apply throws_bind.
  apply (foreach_throws _ _ c); [done|]. intros b.
  destruct Hbad as [[Htag Hover]|[Htag Hnull]].
  - by apply Decapode_cell_object_throws.
  - by apply Decapode_cell_null_throws.
Qed.

End Build.

(** *** The theory and the decapode together *)

Section Together.
Context {Scalar : Type}.
Variable lowercase : string → string.
Variable scalars : gmap string Scalar.

(** X14. Over a theory that [Theory] has built, [Decapode] returns on
    every diagram made of objects over keys of the theory and of morphisms
    over keys of the theory with their [dom] and [cod] set. *)
Theorem Decapode_returns_over_built_theory (model diagram : list Cell) theory :
  Theory_of lowercase model = Return theory →
  Forall (λ c, ∃ key, over c = Some key ∧ key ∈ ids model
               ∧ (tag c = Some "object"
                  ∨ (tag c = Some "morphism"
                     ∧ is_Some (dom c) ∧ is_Some (cod c)))) diagram →
  ∃ r, Decapode diagram theory scalars = Return r.
Proof.
  intros Ht Hall. apply Decapode_returns.
  destruct (Theory_of_invariant lowercase model theory Ht) as [Hkeys Hlast].
  eapply Forall_impl; [exact Hall|]. simpl.
  intros c (key & Hover & Hkey & Hshape).
  apply Hkeys in Hkey as [elem Helem].
  destruct Hshape as [Htag|(Htag & Hd & Hd')].
  - left. split; [done|].
    destruct (Hlast _ _ Helem) as (_ & c' & _ & _ & _ & _ & Hdesc).
    destruct Hdesc as [(_ & sym & _ & ->)|(_ & _ & sym & d & d' & _ & _ & _ & ->)];
      (eexists key, _, sym; split; [done|]; split; [exact Helem|]; done).
  - right. split; [done|]. split; [done|]. split; [done|].
    exists key. split; [done|]. by eexists.
Qed.

(** A named element of a theory that [Theory] has built has the symbol of
    a form or of an operator for name. *)
Lemma Theory_of_symbols (model : list Cell) theory key elem sym :
  Theory_of lowercase model = Return theory →
  data theory !! key = Some elem → elem_name elem = Some sym →
  sym ∈ Ob_symbols ++ Hom_symbols.
Proof.
  intros Ht Helem Hname.
  destruct (Theory_of_invariant lowercase model theory Ht) as [_ Hlast].
  destruct (Hlast _ _ Helem) as (_ & c & _ & _ & _ & _ & Hdesc).
  apply elem_of_app.
  destruct Hdesc as [(_ & s & Hs & ->)|(_ & _ & s & d & d' & Hs & _ & _ & ->)];
    simpl in Hname; injection Hname as ->.
  - left. by eapply to_decapode_theory_Ob_symbol.
  - right. by eapply to_decapode_theory_Hom_symbol.
Qed.

(** X15. Over a theory that [Theory] has built, every variable of the
    decapode that [Decapode] returns has for type one of the symbols that
    [to_decapode_theory] gives. *)
Theorem Decapode_types_are_symbols (model diagram : list Cell) theory d an vs row :
  Theory_of lowercase model = Return theory →
  Decapode diagram theory scalars = Return (d, an, vs) →
  row ∈ Var d →
  var_type row ∈ Ob_symbols ++ Hom_symbols.
Proof.
  intros Ht (b & Hrun%build_invariant_foreach & <- & _ & _)%Decapode_Return
         (i & Hi)%list_elem_of_lookup_1.
  assert (is_Some (objects diagram !! i)) as [c Hc].
  { apply lookup_lt_is_Some. rewrite <- (inv_length _ _ _ _ Hrun).
    by eapply lookup_lt_Some. }
  destruct (inv_types _ _ _ _ Hrun _ _ Hc) as (key & elem & _ & Helem & Hty).
  rewrite Hi in Hty. simpl in Hty.
  by eapply Theory_of_symbols.
Qed.

End Together.

End DecapodesBuildFacts.

(** ** The frontend: what the loaders and the builders leave behind *)

Module FrontendFacts.

Import Model StoreFacts ModelFacts.

Section Validation.
Context `{W : Wasm}.
Implicit Types (σ : Store.store DblModel).

(** X16. [validateModel] leaves every model of the store as it is.  When
    it returns a validated model, that model is a new object of the store,
    its content is the judgments folded in order over a new [DblModel], and
    the result is the validation of that content; when it returns
    [undefined] the store is unchanged. *)
Theorem validateModel_frame
    theory (judgments : list (ModelJudgment ObType MorType)) σ :
  let run := validateModel theory judgments σ in
  let built := foldl add_judgment (DblModel_new theory) judgments in
  (∀ r o, σ !! r = Some o → run.2 !! r = Some o)
  ∧ match run.1 with
    | None => run.2 = σ
    | Some vm => model vm = length σ
                 ∧ σ !! model vm = None
                 ∧ run.2 = σ ++ [built]
                 ∧ result vm = validate built
    end.
Proof.
  simpl. destruct (decide (kind theory = "Discrete")) as [Hkind|Hkind].
  - rewrite validateModel_discrete by done. simpl. split.
    + intros r o Hr. by apply lookup_app_l_Some.
    + repeat split. by apply lookup_ge_None_2.
  - unfold validateModel. rewrite bool_decide_eq_true_2 by done. by simpl.
Qed.
End Validation.

End FrontendFacts.

(** ** The simulation data *)

Module SimulationFacts.

Import Analysis.

Lemma get_In {V} (o : JsRecord V) k v : get o k = Some v → k ∈ keys o.
Proof.
  induction o as [|[k' v'] o IH]; simpl; [done|].
  case_bool_decide as Hk; [intros _; subst; by left|].
  intros Hget. right. by apply IH.
Qed.

Lemma truthy_true (v : option bool) : truthy v = true ↔ v = Some true.
Proof. destruct v as [[]|]; simpl; split; congruence. Qed.

Section Simulation.
Context `{D : Diagrams}.

(** X17. When [makeSimulationData] returns data, the variables to plot are
    the keys of [plotVariables] whose value is [true], in the order of the
    keys; the scalars are those of the content and the model is the
    judgments of the live model. *)
Theorem makeSimulationData_plotVariables
    (liveDiagram : LiveDiagramDocument) (content : DecapodesContent)
    data (v : string) :
  makeSimulationData liveDiagram content = Some data →
  (v ∈ sim_plotVariables data ↔ get (plotVariables content) v = Some true)
  ∧ sim_plotVariables data
    = filter (λ k, get (plotVariables content) k = Some true)
             (keys (plotVariables content))
  ∧ sim_scalars data = scalars content
  ∧ sim_model data = formalJudgments liveDiagram.
Proof.
  unfold makeSimulationData. case_bool_decide; [done|].
  destruct (validatedDiagram liveDiagram) as [vd|]; [|done].
  intros [= <-]. simpl.
  assert (Hfilter : ∀ l : list string,
             filter (λ k, truthy (get (plotVariables content) k) = true) l
             = filter (λ k, get (plotVariables content) k = Some true) l).
  { intros l. apply list_filter_iff. intros k. apply truthy_true. }
  rewrite Hfilter. repeat split; try done.
  - by intros [Hv _]%list_elem_of_filter.
  - intros Hv. apply list_elem_of_filter. split; [done|]. by eapply get_In.
Qed.
End Simulation.

End SimulationFacts.

(** ** The analysis page: every way the load can end *)

Module LoadingFacts.

Import AnalysisPage.

Section Page.
Context `{A : Api}.

(** X18. When the load of the analysis page resolves, the document of the
    page was retrieved under the reference of the page, its handle became
    ready, its type is ["analysis"], its [modelRef] has an [__extern__],
    the store returned a document for the [refId] under it, and the live
    model is what [enlivenModelDocument] made from that document. *)
Theorem AnalysisPage_resolved (ref : string) (live : LiveAnalysisDocument) :
  AnalysisPage ref = Resolved live →
  refId live = ref
  ∧ retrieveDoc ref = Resolved (doc live, docHandle live)
  ∧ whenReady (docHandle live) = Resolved tt
  ∧ type (doc live) = Some "analysis"
  ∧ ∃ r extern modelDoc modelDocHandle,
      modelRef (doc live) = Some r
      ∧ __extern__ r = Some extern
      ∧ retrieveDoc (Extern.refId extern)
        = Resolved (modelDoc, modelDocHandle)
      ∧ enlivenModelDocument (Extern.refId extern) modelDoc modelDocHandle
        = Resolved (liveModel live).
Proof.
  unfold AnalysisPage.
  destruct (retrieveDoc ref) as [e|[d h]] eqn:Hdoc; simpl; [done|].
  destruct (whenReady h) as [e|[]] eqn:Hready; simpl; [done|].
  unfold invariant. case_bool_decide as Htype; simpl; [|done].
  unfold modelRef_refId.
  destruct (modelRef d) as [r|] eqn:Href; simpl; [|done].
  destruct (__extern__ r) as [extern|] eqn:Hextern; simpl; [|done].
  destruct (retrieveDoc (Extern.refId extern)) as [e|[md mh]] eqn:Hmodel;
    simpl; [done|].
  destruct (enlivenModelDocument (Extern.refId extern) md mh)
    as [e|lm] eqn:Hlive; simpl; [done|].
  intros [= <-]. simpl. repeat split; try done.
  by exists r, extern, md, mh.
Qed.

(** X19. The load of the analysis page is rejected with the error of the
    store when the document of the page cannot be retrieved, and with the
    invariant's message, which ends with the type found, when the document
    is retrieved and ready but its type is not ["analysis"]. *)
Theorem AnalysisPage_rejects_page_document (ref : string) :
  (∀ e, retrieveDoc ref = Rejected e → AnalysisPage ref = Rejected e)
  ∧ (∀ doc docHandle,
       retrieveDoc ref = Resolved (doc, docHandle) →
       whenReady docHandle = Resolved tt →
       type doc ≠ Some "analysis" →
       AnalysisPage ref
       = Rejected (InvariantFailed
                     ("Expected analysis document, got type: "
                      ++ show_type (type doc)))).
Proof.
  split.
  - intros e Hdoc. unfold AnalysisPage. by rewrite Hdoc.
  - intros doc docHandle Hdoc Hready Htype.
    unfold AnalysisPage. rewrite Hdoc. simpl. rewrite Hready. simpl.
    unfold invariant. by rewrite bool_decide_eq_false_2.
Qed.

(** X20. For a page document of type ["analysis"] that is retrieved and
    ready, the load is rejected with a [TypeError] when the document has no
    [modelRef] or its [modelRef] has no [__extern__], and with the error
    of the store when the document that the reference points at cannot be
    retrieved. *)
Theorem AnalysisPage_rejects_model (ref : string) doc docHandle :
  retrieveDoc ref = Resolved (doc, docHandle) →
  whenReady docHandle = Resolved tt →
  type doc = Some "analysis" →
  (modelRef doc = None →
   AnalysisPage ref
   = Rejected (TypeError
       "Cannot read properties of undefined (reading '__extern__')"))
  ∧ (∀ r, modelRef doc = Some r → __extern__ r = None →
          AnalysisPage ref
          = Rejected (TypeError
              "Cannot read properties of undefined (reading 'refId')"))
  ∧ (∀ r extern e,
       modelRef doc = Some r → __extern__ r = Some extern →
       retrieveDoc (Extern.refId extern) = Rejected e →
       AnalysisPage ref = Rejected e).
Proof.
  intros Hdoc Hready Htype.
  assert (Hpage : AnalysisPage ref
                  = (modelRefId ← modelRef_refId doc;
                     '(modelDoc, modelDocHandle) ← retrieveDoc modelRefId;
                     liveModel ← enlivenModelDocument modelRefId
                                    modelDoc modelDocHandle;
                     Resolved {| refId := ref; doc := doc;
                                 docHandle := docHandle;
                                 liveModel := liveModel |})).
  { unfold AnalysisPage. rewrite Hdoc. simpl. rewrite Hready. simpl.
    unfold invariant. by rewrite bool_decide_eq_true_2 by done. }
  rewrite Hpage. unfold modelRef_refId.
  split; [|split].
  - intros Href. by rewrite Href.
  - intros r Href Hextern. by rewrite Href, Hextern.
  - intros r extern e Href Hextern Hmodel.
    rewrite Href, Hextern. simpl. by rewrite Hmodel.
Qed.
End Page.

End LoadingFacts.

(** ** Going to the model that was created *)

Module NavigationFacts.

Import Routes Navigation RoutesFacts.









Section Router.
Variable uuid_validate : string → bool.
Variable toLowerCase : string → string.
Context {E : Type}.


(** X22. [CreateModel] renders the error when the RPC is rejected or
    answers [Err], and nothing while the resource is loading or when the
    reference that came back is the empty string: it navigates only on a
    reference that is not empty. *)
Theorem CreateModel_navigates_only_on_ref
    (ref : option (AnalysisPage.Promise (JsResult string E))) href :
  CreateModel (CreateModel_ref <$> ref) = Navigate href ↔
  ∃ r, ref = Some (AnalysisPage.Resolved (Ok r)) ∧ r ≠ ""
       ∧ href = ("/model/" ++ r)%string.
Proof.
  split.
  - destruct ref as [[e|[r|e]]|]; simpl; try done.
    case_bool_decide; [done|]. intros [= <-]. by exists r.
  - intros (r & -> & Hne & ->). simpl. by rewrite bool_decide_eq_false_2.
Qed.
End Router.

End NavigationFacts.

(** ** The theorems at work on the inputs *)

Module Witnesses.

Import Decapodes DecapodesTables DecapodesBuildFacts.

Lemma example_theory :
  Theory_of Example.lowercase Example.model = Return Example.theory.
Proof. by vm_compute. Defined.

Lemma example_decapode :
  Decapode (Scalar := Z) Example.diagram Example.theory ∅
  = Return (Inputs.built, ∅, Inputs.built_vars).
Proof. by vm_compute. Defined.

Lemma Theory_keys_witness :
  Theory_of Example.lowercase Example.model = Return Example.theory
  ∧ (is_Some (data Example.theory !! "dt") ↔ "dt" ∈ ids Example.model).
Proof.
  split; [exact example_theory|].
  exact (Theory_keys Example.lowercase Example.model Example.theory "dt"
           example_theory).
Defined.

Lemma Theory_elements_witness :
  let e := {| elem_name := Some "∂ₜ";
              val := Some (HomData "form0" "form0") |} in
  Theory_of Example.lowercase Example.model = Return Example.theory
  ∧ data Example.theory !! "dt" = Some e
  ∧ is_Some (elem_name e)
  ∧ ∃ earlier c later, Example.model = earlier ++ c :: later
                       ∧ id c = "dt" ∧ ("dt" ∉ ids later)
                       ∧ described_by Example.lowercase c e.
Proof.
  intros e.
  assert (Hk : data Example.theory !! "dt" = Some e) by by vm_compute.
  split; [exact example_theory|]. split; [exact Hk|].
  exact (Theory_elements Example.lowercase Example.model Example.theory
           "dt" e example_theory Hk).
Defined.

Lemma Theory_null_end_witness :
  let c := {| tag := Some "morphism"; id := "dt"; name := "∂t";
              over := None; dom := None; cod := None |} in
  c ∈ Inputs.unfilled_model
  ∧ tag c = Some "morphism"
  ∧ (dom c = None ∨ cod c = None)
  ∧ throws (Theory_of Example.lowercase Inputs.unfilled_model).
Proof.
  intros c.
  assert (Hin : c ∈ Inputs.unfilled_model)
    by (unfold Inputs.unfilled_model; apply elem_of_cons; right;
        apply elem_of_cons; by left).
  split; [exact Hin|]. split; [done|]. split; [by left|].
  exact (Theory_null_end Example.lowercase Inputs.unfilled_model c
           Hin eq_refl (or_introl eq_refl)).
Defined.

Lemma Decapode_parts_in_range_witness :
  Decapode (Scalar := Z) Example.diagram Example.theory ∅
  = Return (Inputs.built, ∅, Inputs.built_vars)
  ∧ Forall (λ r, in_range Inputs.built (src r) ∧ in_range Inputs.built (tgt r))
           (Op1 Inputs.built)
  ∧ Forall (in_range Inputs.built) (TVar Inputs.built)
  ∧ (∀ k v, Inputs.built_vars !! k = Some v → in_range Inputs.built v).
Proof.
  split; [exact example_decapode|].
  exact (Decapode_parts_in_range Example.theory ∅ Example.diagram
           Inputs.built ∅ Inputs.built_vars example_decapode).
Defined.

Lemma Decapode_dictionary_witness :
  Decapode (Scalar := Z) Example.diagram Example.theory ∅
  = Return (Inputs.built, ∅, Inputs.built_vars)
  ∧ (∀ k, is_Some (Inputs.built_vars !! k)
          ↔ k ∈ ids (objects Example.diagram))
  ∧ (NoDup (ids (objects Example.diagram)) →
     ∀ i c, objects Example.diagram !! i = Some c →
            Inputs.built_vars !! id c = Some (S i)).
Proof.
  split; [exact example_decapode|].
  exact (Decapode_dictionary Example.theory ∅ Example.diagram
           Inputs.built ∅ Inputs.built_vars example_decapode).
Defined.

Lemma Decapode_variable_types_witness :
  let c := {| tag := Some "object"; id := "u"; name := "u";
              over := Some "form0"; dom := None; cod := None |} in
  Decapode (Scalar := Z) Example.diagram Example.theory ∅
  = Return (Inputs.built, ∅, Inputs.built_vars)
  ∧ objects Example.diagram !! 1%nat = Some c
  ∧ ∃ key elem, over c = Some key ∧ data Example.theory !! key = Some elem
                ∧ var_type <$> Var Inputs.built !! 1%nat = elem_name elem.
Proof.
  intros c.
  assert (Hc : objects Example.diagram !! 1%nat = Some c) by by vm_compute.
  split; [exact example_decapode|]. split; [exact Hc|].
  exact (Decapode_variable_types Example.theory ∅ Example.diagram
           Inputs.built ∅ Inputs.built_vars 1%nat c example_decapode Hc).
Defined.

Lemma Decapode_time_derivatives_witness :
  Decapode (Scalar := Z) Example.diagram Example.theory ∅
  = Return (Inputs.built, ∅, Inputs.built_vars)
  ∧ TVar Inputs.built = map tgt (List.filter is_dt (Op1 Inputs.built)).
Proof.
  split; [exact example_decapode|].
  exact (Decapode_time_derivatives Example.theory ∅ Example.diagram
           Inputs.built ∅ Inputs.built_vars example_decapode).
Defined.

Lemma Decapode_operations_witness :
  Decapode (Scalar := Z) Example.diagram Example.theory ∅
  = Return (Inputs.built, ∅, Inputs.built_vars)
  ∧ map op1 (Op1 Inputs.built)
    = map (op1_of Example.theory) (kept [] Example.diagram).
Proof.
  split; [exact example_decapode|].
  exact (Decapode_operations Example.theory ∅ Example.diagram
           Inputs.built ∅ Inputs.built_vars example_decapode).
Defined.

Lemma Decapode_scalar_closures_witness :
  Decapode (Scalar := Z) Example.diagram Example.theory ∅
  = Return (Inputs.built, ∅, Inputs.built_vars)
  ∧ (∀ s v, (∅ : gmap Symbol Z) !! s = Some v →
            s ∈ map op1 (Op1 Inputs.built)
            ∧ ∃ key, (∅ : gmap string Z) !! key = Some v)
  ∧ ((∅ : gmap string Z) = ∅ → (∅ : gmap Symbol Z) = ∅).
Proof.
  split; [exact example_decapode|].
  exact (Decapode_scalar_closures Example.theory ∅ Example.diagram
           Inputs.built ∅ Inputs.built_vars example_decapode).
Defined.

Lemma Decapode_dangling_morphism_ignored_witness :
  tag Inputs.dangling_f = Some "morphism"
  ∧ dom Inputs.dangling_f = Some "u"
  ∧ cod Inputs.dangling_f = Some "missing"
  ∧ ("u" ∉ ids (objects [Inputs.named_u])
     ∨ "missing" ∉ ids (objects [Inputs.named_u]))
  ∧ Decapode (Scalar := Z) ([Inputs.named_u] ++ Inputs.dangling_f :: [])
      Example.theory ∅
    = Decapode ([Inputs.named_u] ++ []) Example.theory ∅.
Proof.
  assert (Hmissing : "u" ∉ ids (objects [Inputs.named_u])
                     ∨ "missing" ∉ ids (objects [Inputs.named_u])).
  { right. intros Hin. apply list_elem_of_In in Hin. simpl in Hin.
    by destruct Hin as [?|[]]. }
  split; [done|]. split; [done|]. split; [done|]. split; [exact Hmissing|].
  exact (Decapode_dangling_morphism_ignored Example.theory ∅
           [Inputs.named_u] [] Inputs.dangling_f "u" "missing"
           eq_refl eq_refl eq_refl Hmissing).
Defined.

Lemma Decapode_throws_witness :
  let c := {| tag := Some "object"; id := "u"; name := "u";
              over := Some "form9"; dom := None; cod := None |} in
  c ∈ Inputs.orphan_diagram
  ∧ ((tag c = Some "object"
      ∧ ∀ key, over c = Some key → data Example.theory !! key = None)
     ∨ (tag c = Some "morphism" ∧ (dom c = None ∨ cod c = None)))
  ∧ throws (Decapode (Scalar := Z) Inputs.orphan_diagram Example.theory ∅).
Proof.
  intros c.
  assert (Hin : c ∈ Inputs.orphan_diagram)
    by (unfold Inputs.orphan_diagram; by left).
  assert (Hbad : (tag c = Some "object"
                  ∧ ∀ key, over c = Some key
                           → data Example.theory !! key = None)
                 ∨ (tag c = Some "morphism" ∧ (dom c = None ∨ cod c = None))).
  { left. split; [done|]. intros key [= <-]. by vm_compute. }
  split; [exact Hin|]. split; [exact Hbad|].
  exact (Decapode_throws Example.theory ∅ Inputs.orphan_diagram c Hin Hbad).
Defined.

Lemma Decapode_returns_over_built_theory_witness :
  let shape := λ c, ∃ key, over c = Some key ∧ key ∈ ids Example.model
                 ∧ (tag c = Some "object"
                    ∨ (tag c = Some "morphism"
                       ∧ is_Some (dom c) ∧ is_Some (cod c))) in
  Theory_of Example.lowercase Example.model = Return Example.theory
  ∧ Forall shape Example.diagram
  ∧ ∃ r, Decapode (Scalar := Z) Example.diagram Example.theory ∅ = Return r.
Proof.
  intros shape.
  assert (Hform : "form0" ∈ ids Example.model) by by left.
  assert (Hdt : "dt" ∈ ids Example.model) by (right; by left).
  assert (Hall : Forall shape Example.diagram).
  { unfold Example.diagram.
    repeat apply Forall_cons_2; try apply Forall_nil_2.
    - exists "form0". by repeat split; [|left].
    - exists "form0". by repeat split; [|left].
    - exists "form0". by repeat split; [|left].
    - exists "dt". split; [done|]. split; [done|]. right.
      repeat split; by eexists. }
  split; [exact example_theory|]. split; [exact Hall|].
  exact (Decapode_returns_over_built_theory Example.lowercase ∅
           Example.model Example.diagram Example.theory example_theory Hall).
Defined.

Lemma Decapode_types_are_symbols_witness :
  let row := {| var_name := "u"; var_type := "Form0" |} in
  Theory_of Example.lowercase Example.model = Return Example.theory
  ∧ Decapode (Scalar := Z) Example.diagram Example.theory ∅
    = Return (Inputs.built, ∅, Inputs.built_vars)
  ∧ row ∈ Var Inputs.built
  ∧ var_type row ∈ Ob_symbols ++ Hom_symbols.
Proof.
  intros row.
  assert (Hrow : row ∈ Var Inputs.built) by (right; by left).
  split; [exact example_theory|]. split; [exact example_decapode|].
  split; [exact Hrow|].
  exact (Decapode_types_are_symbols Example.lowercase ∅ Example.model
           Example.diagram Example.theory Inputs.built ∅ Inputs.built_vars
           row example_theory example_decapode Hrow).
Defined.


Lemma makeSimulationData_plotVariables_witness :
  let data := @Analysis.Build_SimulationData Analysis.Example.diagrams
                [] ["judgment"] [("k", 2%Z)] ["u"; "w"] in
  Analysis.makeSimulationData Inputs.valid_diagram Inputs.plot_content
  = Some data
  ∧ ("u" ∈ Analysis.sim_plotVariables data
     ↔ Analysis.get (Analysis.plotVariables Inputs.plot_content) "u"
       = Some true)
  ∧ Analysis.sim_plotVariables data
    = filter (λ k, Analysis.get (Analysis.plotVariables Inputs.plot_content) k
                   = Some true)
             (Analysis.keys (Analysis.plotVariables Inputs.plot_content))
  ∧ Analysis.sim_scalars data = Analysis.scalars Inputs.plot_content
  ∧ Analysis.sim_model data = Analysis.formalJudgments Inputs.valid_diagram.
Proof.
  intros data.
  assert (Hrun : Analysis.makeSimulationData Inputs.valid_diagram
                   Inputs.plot_content = Some data) by by vm_compute.
  split; [exact Hrun|].
  exact (SimulationFacts.makeSimulationData_plotVariables
           Inputs.valid_diagram Inputs.plot_content data "u" Hrun).
Defined.

Lemma AnalysisPage_resolved_witness :
  let api := AnalysisPage.Example.api Inputs.server_model in
  let live := @AnalysisPage.Build_LiveAnalysisDocument api
                "a1" (AnalysisPage.Example.analysis "m1") "a1"
                {| AnalysisPage.Example.live_refId := "m1";
                   AnalysisPage.Example.live_doc := Inputs.model_document;
                   AnalysisPage.Example.live_handle := "m1" |} in
  AnalysisPage.AnalysisPage (A := api) "a1" = AnalysisPage.Resolved live
  ∧ AnalysisPage.refId live = "a1"
  ∧ AnalysisPage.retrieveDoc "a1"
    = AnalysisPage.Resolved (AnalysisPage.doc live, AnalysisPage.docHandle live)
  ∧ AnalysisPage.whenReady (AnalysisPage.docHandle live)
    = AnalysisPage.Resolved tt
  ∧ AnalysisPage.type (AnalysisPage.doc live) = Some "analysis"
  ∧ ∃ r extern modelDoc modelDocHandle,
      AnalysisPage.modelRef (AnalysisPage.doc live) = Some r
      ∧ AnalysisPage.__extern__ r = Some extern
      ∧ AnalysisPage.retrieveDoc (AnalysisPage.Extern.refId extern)
        = AnalysisPage.Resolved (modelDoc, modelDocHandle)
      ∧ AnalysisPage.enlivenModelDocument (AnalysisPage.Extern.refId extern)
          modelDoc modelDocHandle
        = AnalysisPage.Resolved (AnalysisPage.liveModel live).
Proof.
  intros api live.
  assert (Hrun : AnalysisPage.AnalysisPage (A := api) "a1"
                 = AnalysisPage.Resolved live) by by vm_compute.
  split; [exact Hrun|].
  exact (LoadingFacts.AnalysisPage_resolved (A := api) "a1" live Hrun).
Defined.

Lemma AnalysisPage_rejects_page_document_witness :
  let api := AnalysisPage.Example.api AnalysisPage.Example.server_untyped in
  (AnalysisPage.retrieveDoc (Api := api) "zz"
   = AnalysisPage.Rejected (AnalysisPage.RetrieveFailed "zz")
   ∧ AnalysisPage.AnalysisPage (A := api) "zz"
     = AnalysisPage.Rejected (AnalysisPage.RetrieveFailed "zz"))
  ∧ (AnalysisPage.retrieveDoc (Api := api) "m1"
     = AnalysisPage.Resolved (AnalysisPage.Example.untyped, "m1")
     ∧ AnalysisPage.whenReady (Api := api) "m1" = AnalysisPage.Resolved tt
     ∧ AnalysisPage.type AnalysisPage.Example.untyped ≠ Some "analysis"
     ∧ AnalysisPage.AnalysisPage (A := api) "m1"
       = AnalysisPage.Rejected
           (AnalysisPage.InvariantFailed
              "Expected analysis document, got type: undefined")).
Proof.
  intros api.
  destruct (LoadingFacts.AnalysisPage_rejects_page_document (A := api) "zz")
    as [Hmissing _].
  destruct (LoadingFacts.AnalysisPage_rejects_page_document (A := api) "m1")
    as [_ Hwrong].
  assert (Hzz : AnalysisPage.retrieveDoc (Api := api) "zz"
                = AnalysisPage.Rejected (AnalysisPage.RetrieveFailed "zz"))
    by by vm_compute.
  assert (Hm1 : AnalysisPage.retrieveDoc (Api := api) "m1"
                = AnalysisPage.Resolved (AnalysisPage.Example.untyped, "m1"))
    by by vm_compute.
  split.
  - split; [exact Hzz | exact (Hmissing _ Hzz)].
  - split; [exact Hm1|]. split; [done|]. split; [done|].
    exact (Hwrong _ _ Hm1 eq_refl ltac:(done)).
Defined.

Lemma AnalysisPage_rejects_model_witness :
  let api := AnalysisPage.Example.api Inputs.server_orphan in
  let a3 := {| AnalysisPage.type := Some "analysis";
               AnalysisPage.modelRef := None;
               AnalysisPage.rest := tt |} in
  let flat := {| AnalysisPage.__extern__ := None |} in
  let a4 := {| AnalysisPage.type := Some "analysis";
               AnalysisPage.modelRef := Some flat;
               AnalysisPage.rest := tt |} in
  let zz := {| AnalysisPage.Extern.refId := "zz";
               AnalysisPage.Extern.taxon := "model" |} in
  (AnalysisPage.retrieveDoc (Api := api) "a3" = AnalysisPage.Resolved (a3, "a3")
   ∧ AnalysisPage.modelRef a3 = None
   ∧ AnalysisPage.AnalysisPage (A := api) "a3"
     = AnalysisPage.Rejected
         (AnalysisPage.TypeError
            "Cannot read properties of undefined (reading '__extern__')"))
  ∧ (AnalysisPage.retrieveDoc (Api := api) "a4" = AnalysisPage.Resolved (a4, "a4")
     ∧ AnalysisPage.modelRef a4 = Some flat
     ∧ AnalysisPage.__extern__ flat = None
     ∧ AnalysisPage.AnalysisPage (A := api) "a4"
       = AnalysisPage.Rejected
           (AnalysisPage.TypeError
              "Cannot read properties of undefined (reading 'refId')"))
  ∧ (AnalysisPage.retrieveDoc (Api := api) "a1"
     = AnalysisPage.Resolved (AnalysisPage.Example.analysis "zz", "a1")
     ∧ AnalysisPage.modelRef (AnalysisPage.Example.analysis "zz")
       = Some (AnalysisPage.Example.model_ref "zz")
     ∧ AnalysisPage.__extern__ (AnalysisPage.Example.model_ref "zz") = Some zz
     ∧ AnalysisPage.retrieveDoc (Api := api) (AnalysisPage.Extern.refId zz)
       = AnalysisPage.Rejected (AnalysisPage.RetrieveFailed "zz")
     ∧ AnalysisPage.AnalysisPage (A := api) "a1"
       = AnalysisPage.Rejected (AnalysisPage.RetrieveFailed "zz")).
Proof.
  intros api a3 flat a4 zz.
  assert (Ha3 : AnalysisPage.retrieveDoc (Api := api) "a3"
                = AnalysisPage.Resolved (a3, "a3")) by by vm_compute.
  assert (Ha4 : AnalysisPage.retrieveDoc (Api := api) "a4"
                = AnalysisPage.Resolved (a4, "a4")) by by vm_compute.
  assert (Ha1 : AnalysisPage.retrieveDoc (Api := api) "a1"
                = AnalysisPage.Resolved (AnalysisPage.Example.analysis "zz", "a1"))
    by by vm_compute.
  assert (Hzz : AnalysisPage.retrieveDoc (Api := api)
                  (AnalysisPage.Extern.refId zz)
                = AnalysisPage.Rejected (AnalysisPage.RetrieveFailed "zz"))
    by by vm_compute.
  destruct (LoadingFacts.AnalysisPage_rejects_model (A := api) "a3" a3 "a3"
              Ha3 eq_refl eq_refl) as (Hnone & _).
  destruct (LoadingFacts.AnalysisPage_rejects_model (A := api) "a4" a4 "a4"
              Ha4 eq_refl eq_refl) as (_ & Hflat & _).
  destruct (LoadingFacts.AnalysisPage_rejects_model (A := api) "a1"
              (AnalysisPage.Example.analysis "zz") "a1"
              Ha1 eq_refl eq_refl) as (_ & _ & Hfail).
  split; [|split].
  - split; [exact Ha3|]. split; [done|]. exact (Hnone eq_refl).
  - split; [exact Ha4|]. split; [done|]. split; [done|].
    exact (Hflat flat eq_refl eq_refl).
  - split; [exact Ha1|]. split; [done|]. split; [done|]. split; [exact Hzz|].
    exact (Hfail _ zz _ eq_refl eq_refl Hzz).
Defined.


End Witnesses.
